(** * ai4eu generic parallel orchestrator: blueprint and dockerinfo resolution

    A shallow embedding of [src/ai4eu/orchestrator.py]: the pydantic records
    [NodeInfo], [MessageInfo], [LinkInfo] and [RPCInfo], the class [Core] with
    its two methods [collect_node_infos] and [collect_rpc_and_link_infos], and
    the driver [test_orchestrator].

    Python objects that are shared and mutated in place (the RPC records,
    whose [incoming] and [outgoing] lists grow during interlinking, and the
    link records they hold) are kept in a store: an RPC is named by its
    position in [Core.rpcs] and a link by its position in [Core.links].
    Every RPC the code creates is appended to [Core.rpcs] exactly once and
    every link to [Core.links] exactly once, nothing is ever removed, so a
    position is a faithful object identity. *)

From stdpp Require Import gmap strings list fin_maps.
From Stdlib Require Import ZArith.

(** ** The pydantic data classes *)

Record NodeInfo := {
  container_name : string;
  host : string;
  port : Z
}.

Record MessageInfo := {
  name : string;
  stream : bool
}.

Abbreviation rpc_ref := nat (only parsing).
Abbreviation link_ref := nat (only parsing).

(** [LinkInfo.input] and [LinkInfo.output] are references to RPC objects. *)
Record LinkInfo := {
  link_input : rpc_ref;
  link_output : rpc_ref;
  message_name : string
}.

(** [RPCInfo.incoming] and [RPCInfo.outgoing] are lists of references to
    link objects. *)
Record RPCInfo := {
  node : NodeInfo;
  operation : string;
  input : MessageInfo;
  output : MessageInfo;
  incoming : list link_ref;
  outgoing : list link_ref
}.

(** pydantic models compare by their fields. *)
#[global] Instance NodeInfo_eq_dec : EqDecision NodeInfo.
Proof. solve_decision. Defined.

#[global] Instance MessageInfo_eq_dec : EqDecision MessageInfo.
Proof. solve_decision. Defined.

#[global] Instance LinkInfo_eq_dec : EqDecision LinkInfo.
Proof. solve_decision. Defined.

#[global] Instance RPCInfo_eq_dec : EqDecision RPCInfo.
Proof. solve_decision. Defined.

(** ** The two input documents, after [json.loads]

    Only the keys the code reads are kept.  A document in which one of them
    is missing is excluded by these types. *)

(** An element of [sig_conn['connected_to']]: [con['container_name']] and
    [con['operation_signature']['operation_name']]. *)
Record Connection := {
  con_container_name : string;
  con_operation_name : string
}.

(** [sig_conn['operation_signature']]. *)
Record OperationSignature := {
  operation_name : string;
  input_message_name : string;
  input_message_stream : bool;
  output_message_name : string;
  output_message_stream : bool
}.

(** An element of [node['operation_signature_list']]. *)
Record SigConn := {
  operation_signature : OperationSignature;
  connected_to : list Connection
}.

(** An element of [bpjson['nodes']]. *)
Record BlueprintNode := {
  bp_container_name : string;
  operation_signature_list : list SigConn
}.

Record Blueprint := {
  bp_nodes : list BlueprintNode
}.

(** An element of [dijson['docker_info_list']]. *)
Record DockerInfoEntry := {
  di_container_name : string;
  ip_address : string;
  di_port : Z
}.

Record DockerInfo := {
  docker_info_list : list DockerInfoEntry
}.

(** An element of the local list [link_partial]: the dict with keys
    ["input"], ["message_name"], ["output_node"], ["output_operation"]. *)
Record LinkPartial := {
  lp_input : rpc_ref;
  lp_message_name : string;
  output_node : NodeInfo;
  output_operation : string
}.

#[global] Instance LinkPartial_eq_dec : EqDecision LinkPartial.
Proof. solve_decision. Defined.

(** ** Exceptions

    - [ValueError_duplicate_container]: [ValueError("dockerinfo json contains
      duplicate container name %s")], the spec's DuplicateIdentityError;
    - [ValueError_not_in_dockerinfo]: [ValueError("blueprint json contains
      container named %s that is not present in dockerinfo json")], the
      spec's MissingDeploymentError;
    - [KeyError]: a failed [self.nodes[...]] lookup;
    - [RuntimeError_incoming_links]: the [RuntimeError] of the interlinking
      loop, the spec's LinkCardinalityError, with the values its message is
      formatted from: observed count, the RPC, its input message name, the
      expected count and the matched descriptors;
    - [IndexError]: [incoming_links[0]] on an empty list. *)
Inductive Exception :=
| ValueError_duplicate_container (container : string)
| ValueError_not_in_dockerinfo (container : string)
| KeyError (key : string)
| RuntimeError_incoming_links
    (observed : nat) (rpc : rpc_ref) (input_name : string) (expected : nat)
    (matched : list LinkPartial)
| IndexError.

(** ** The class [Core]

    [nodes], [rpcs] and [links] are assigned in the class body, and no method
    ever assigns [self.nodes], [self.rpcs] or [self.links]: the methods only
    mutate the three containers in place.  The containers therefore belong to
    the class, and every instance reads and writes the same three objects.
    A value of [Core] is the content of these three containers. *)
Record Core := {
  nodes : gmap string NodeInfo;
  rpcs : list RPCInfo;
  links : list LinkInfo
}.

(** The containers as the class body creates them. *)
Definition Core_class : Core :=
  {| nodes := ∅; rpcs := []; links := [] |}.

(** ** Computations that mutate the containers and may raise

    An exception leaves the mutations made before it in place. *)
Definition M (A : Type) : Type := Core → Core * (Exception + A).

Definition ret {A} (a : A) : M A := λ c, (c, inr a).

Definition raise {A} (e : Exception) : M A := λ c, (c, inl e).

Definition bind {A B} (m : M A) (k : A → M B) : M B :=
  λ c, match m c with
       | (c', inl e) => (c', inl e)
       | (c', inr a) => k a c'
       end.

Notation "x <- m ;; k" := (bind m (λ x, k))
  (at level 100, m at next level, right associativity).
Notation "m ;; k" := (bind m (λ _, k))
  (at level 100, right associativity).

Definition get : M Core := λ c, (c, inr c).

Definition modify (f : Core → Core) : M unit := λ c, (f c, inr tt).

(** [for x in xs: body] *)
Fixpoint for_each {A} (xs : list A) (body : A → M unit) : M unit :=
  match xs with
  | [] => ret tt
  | x :: xs' => body x ;; for_each xs' body
  end.

(** [for x in xs: body], the body updating a local variable. *)
Fixpoint for_fold {A S} (xs : list A) (body : S → A → M S) (s : S) : M S :=
  match xs with
  | [] => ret s
  | x :: xs' => s' <- body s x ;; for_fold xs' body s'
  end.

(** ** [Core.collect_node_infos] *)

(** [self.nodes[key] = ni] *)
Definition nodes_setitem (key : string) (ni : NodeInfo) (c : Core) : Core :=
  {| nodes := <[key := ni]> (nodes c); rpcs := rpcs c; links := links c |}.

(** The first loop: extract dockerinfo. *)
Definition extract_dockerinfo (dijson : DockerInfo) : M unit :=
  for_each (docker_info_list dijson) (λ di,
    let ni := {| container_name := di_container_name di;
                 host := ip_address di;
                 port := di_port di |} in
    c <- get ;;
    match nodes c !! container_name ni with
    | Some _ => raise (ValueError_duplicate_container (container_name ni))
    | None => modify (nodes_setitem (container_name ni) ni)
    end).

(** The second loop: verify blueprint. *)
Definition verify_blueprint (bpjson : Blueprint) : M unit :=
  for_each (bp_nodes bpjson) (λ n,
    c <- get ;;
    match nodes c !! bp_container_name n with
    | Some _ => ret tt
    | None => raise (ValueError_not_in_dockerinfo (bp_container_name n))
    end).

Definition collect_node_infos (bpjson : Blueprint) (dijson : DockerInfo)
  : M (gmap string NodeInfo) :=
  extract_dockerinfo dijson ;;
  verify_blueprint bpjson ;;
  c <- get ;;
  ret (nodes c).

(** ** [Core.collect_rpc_and_link_infos] *)

(** [self.nodes[key]] *)
Definition nodes_getitem (key : string) : M NodeInfo :=
  c <- get ;;
  match nodes c !! key with
  | Some ni => ret ni
  | None => raise (KeyError key)
  end.

(** [self.rpcs.append(rpc)] *)
Definition rpcs_append (rpc : RPCInfo) (c : Core) : Core :=
  {| nodes := nodes c; rpcs := rpcs c ++ [rpc]; links := links c |}.

(** [self.links.append(link)] *)
Definition links_append (link : LinkInfo) (c : Core) : Core :=
  {| nodes := nodes c; rpcs := rpcs c; links := links c ++ [link] |}.

Definition outgoing_append (link : link_ref) (rpc : RPCInfo) : RPCInfo :=
  {| node := node rpc; operation := operation rpc;
     input := input rpc; output := output rpc;
     incoming := incoming rpc; outgoing := outgoing rpc ++ [link] |}.

Definition incoming_append (link : link_ref) (rpc : RPCInfo) : RPCInfo :=
  {| node := node rpc; operation := operation rpc;
     input := input rpc; output := output rpc;
     incoming := incoming rpc ++ [link]; outgoing := outgoing rpc |}.

(** A mutation of the RPC object [r]. *)
Definition rpc_update (f : RPCInfo → RPCInfo) (r : rpc_ref) (c : Core) : Core :=
  {| nodes := nodes c; rpcs := alter f r (rpcs c); links := links c |}.

(** The body of the loop over [node['operation_signature_list']]: one RPC
    with its outgoing links (partial info).  The RPC object is created
    before the descriptors that refer to it and appended to [self.rpcs]
    after them; nothing else is appended in between, so the position it
    will take is the length of [self.rpcs] at its creation. *)
Definition extract_sig_conn (bp_node : BlueprintNode)
    (link_partial : list LinkPartial) (sig_conn : SigConn)
  : M (list LinkPartial) :=
  let sig := operation_signature sig_conn in
  ni <- nodes_getitem (bp_container_name bp_node) ;;
  c <- get ;;
  let rpc := {| node := ni;
                operation := operation_name sig;
                input := {| name := input_message_name sig;
                            stream := input_message_stream sig |};
                output := {| name := output_message_name sig;
                             stream := output_message_stream sig |};
                incoming := [];
                outgoing := [] |} in
  let rpc_id := length (rpcs c) in
  link_partial <- for_fold (connected_to sig_conn) (λ link_partial con,
      target <- nodes_getitem (con_container_name con) ;;
      ret (link_partial ++
             [ {| lp_input := rpc_id;
                  lp_message_name := output_message_name sig;
                  output_node := target;
                  output_operation := con_operation_name con |} ]))
    link_partial ;;
  modify (rpcs_append rpc) ;;
  ret link_partial.

(** The first loop nest: extract rpc from blueprint. *)
Definition extract_rpcs (bpjson : Blueprint) : M (list LinkPartial) :=
  for_fold (bp_nodes bpjson) (λ link_partial bp_node,
      for_fold (operation_signature_list bp_node)
        (extract_sig_conn bp_node) link_partial)
    [].

(** The list comprehension [incoming_links]. *)
Definition incoming_links (link_partial : list LinkPartial) (rpc : RPCInfo)
  : list LinkPartial :=
  filter (λ lp, output_node lp = node rpc ∧ output_operation lp = operation rpc)
         link_partial.

Definition expected_incoming_links (rpc : RPCInfo) : nat :=
  if decide (name (input rpc) = "Empty"%string) then 0 else 1.

(** The body of the loop [for rpc in self.rpcs], for the RPC at position
    [r].  The iterator only yields positions that hold an RPC. *)
Definition interlink_rpc (link_partial : list LinkPartial) (r : rpc_ref)
  : M unit :=
  c <- get ;;
  match rpcs c !! r with
  | None => ret tt
  | Some rpc =>
      let matched := incoming_links link_partial rpc in
      let expected := expected_incoming_links rpc in
      if decide (length matched ≠ expected) then
        raise (RuntimeError_incoming_links
                 (length matched) r (name (input rpc)) expected matched)
      else if decide (0 < expected) then
        match matched with
        | [] => raise IndexError
        | incoming_lp :: _ =>
            let link := {| link_input := lp_input incoming_lp;
                           link_output := r;
                           message_name := lp_message_name incoming_lp |} in
            let link_id := length (links c) in
            modify (links_append link) ;;
            modify (rpc_update (outgoing_append link_id) (link_input link)) ;;
            modify (rpc_update (incoming_append link_id) (link_output link))
        end
      else ret tt
  end.

(** The second loop: create LinkInfos and store into incoming/outgoing. *)
Definition interlink (link_partial : list LinkPartial) : M unit :=
  c <- get ;;
  for_each (seq 0 (length (rpcs c))) (interlink_rpc link_partial).

Definition collect_rpc_and_link_infos (bpjson : Blueprint)
  : M (list RPCInfo * list LinkInfo) :=
  link_partial <- extract_rpcs bpjson ;;
  interlink link_partial ;;
  c <- get ;;
  ret (rpcs c, links c).

(** ** [test_orchestrator]

    [oc = Core()] creates an instance without attributes of its own, so the
    two calls work on the containers of the class.  The result is what the
    three [logging.warning] calls are given. *)
Definition test_orchestrator (bpjson : Blueprint) (dijson : DockerInfo)
  : M (gmap string NodeInfo * list RPCInfo * list LinkInfo) :=
  nodes <- collect_node_infos bpjson dijson ;;
  rl <- collect_rpc_and_link_infos bpjson ;;
  ret (nodes, rl.1, rl.2).

(** * Notions used in the statements *)

(** ** The node registry *)

(** The node built from one dockerinfo entry. *)
Definition node_of_entry (di : DockerInfoEntry) : NodeInfo :=
  {| container_name := di_container_name di;
     host := ip_address di;
     port := di_port di |}.

(** The mapping a dockerinfo without repeated names describes. *)
Definition registry_of (dil : list DockerInfoEntry) : gmap string NodeInfo :=
  list_to_map ((λ di, (di_container_name di, node_of_entry di)) <$> dil).

(** Every name of the dockerinfo is new: none occurs twice and none is
    already a key of [self.nodes]. *)
Definition all_new (dil : list DockerInfoEntry) (c : Core) : Prop :=
  NoDup (di_container_name <$> dil) ∧
  ∀ di, di ∈ dil → nodes c !! di_container_name di = None.

(** ** The link resolver *)

(** The fields of an RPC that are set at its creation and never mutated. *)
Definition rpc_static (r : RPCInfo)
  : NodeInfo * string * MessageInfo * MessageInfo :=
  (node r, operation r, input r, output r).

(** The incoming cardinality rule for one RPC: the number of descriptors
    addressed to it is the expected one. *)
Definition cardinality_ok (link_partial : list LinkPartial) (rpc : RPCInfo)
  : Prop :=
  length (incoming_links link_partial rpc) = expected_incoming_links rpc.

#[global] Instance cardinality_ok_dec link_partial rpc :
  Decision (cardinality_ok link_partial rpc).
Proof. unfold cardinality_ok. apply _. Defined.

(** The exception the interlinking loop raises at the RPC in position [r]. *)
Definition cardinality_error (link_partial : list LinkPartial)
    (r : rpc_ref) (rpc : RPCInfo) : Exception :=
  RuntimeError_incoming_links
    (length (incoming_links link_partial rpc)) r (name (input rpc))
    (expected_incoming_links rpc) (incoming_links link_partial rpc).

(** The three mutations that the loop body makes for the descriptor [lp]
    matched by the RPC in position [r]. *)
Definition add_link (lp : LinkPartial) (r : rpc_ref) (c : Core) : Core :=
  let link := {| link_input := lp_input lp;
                 link_output := r;
                 message_name := lp_message_name lp |} in
  let link_id := length (links c) in
  rpc_update (incoming_append link_id) r
    (rpc_update (outgoing_append link_id) (lp_input lp)
       (links_append link c)).

(** The positions, counted from [j], of the links of [ls] whose end [f]
    ([link_input] or [link_output]) is the RPC [r]. *)
Fixpoint positions (f : LinkInfo → rpc_ref) (r : rpc_ref)
    (ls : list LinkInfo) (j : link_ref) : list link_ref :=
  match ls with
  | [] => []
  | l :: ls' =>
      if decide (f l = r) then j :: positions f r ls' (S j)
      else positions f r ls' (S j)
  end.

(** A descriptor refers to an RPC of the store and carries the name of that
    RPC's output message. *)
Definition lp_wf (rs : list RPCInfo) (lp : LinkPartial) : Prop :=
  ∃ p, rs !! lp_input lp = Some p ∧ lp_message_name lp = name (output p).

(** The store is consistent: the ends of every link are RPCs of the store,
    a link carries the name of its producer's output message, and the
    [incoming] ([outgoing]) list of an RPC holds exactly the links whose
    output (input) it is, in the order of [links]. *)
Record store_consistent (c : Core) : Prop := {
  sc_range : ∀ l, l ∈ links c →
     link_input l < length (rpcs c) ∧ link_output l < length (rpcs c);
  sc_message : ∀ l p, l ∈ links c → rpcs c !! link_input l = Some p →
     message_name l = name (output p);
  sc_incoming : ∀ i r, rpcs c !! i = Some r →
     incoming r = positions link_output i (links c) 0;
  sc_outgoing : ∀ i r, rpcs c !! i = Some r →
     outgoing r = positions link_input i (links c) 0
}.

(** The keys [collect_rpc_and_link_infos] looks up in [self.nodes], in the
    order of the lookups: for every operation signature the name of its
    node, then the target of each of its connections. *)
Definition sig_conn_keys (bp_node : BlueprintNode) (sig_conn : SigConn)
  : list string :=
  bp_container_name bp_node :: (con_container_name <$> connected_to sig_conn).

Definition blueprint_keys (bpjson : Blueprint) : list string :=
  bp_node ← bp_nodes bpjson;
  sig_conn ← operation_signature_list bp_node;
  sig_conn_keys bp_node sig_conn.

(** What the interlinking loop does to the store: it leaves [self.nodes]
    and the creation-time fields of the RPCs alone, and appends links. *)
Definition interlinked (c c' : Core) : Prop :=
  nodes c' = nodes c ∧
  rpc_static <$> rpcs c' = rpc_static <$> rpcs c ∧
  links c `prefix_of` links c'.

(** ** The operation extractor *)

(** What the extraction loops do to the store: they append RPCs whose
    [incoming] and [outgoing] lists are empty, and nothing else. *)
Definition extended (c c' : Core) : Prop :=
  nodes c' = nodes c ∧ links c' = links c ∧
  ∃ new, rpcs c' = rpcs c ++ new ∧
         Forall (λ r, incoming r = [] ∧ outgoing r = []) new.

(** An extraction that looked up [keys] went through, from the store [c]
    and the descriptors [lps] to [c'] and [lps']. *)
Definition extraction_ok (keys : list string)
    (c : Core) (lps : list LinkPartial)
    (c' : Core) (lps' : list LinkPartial) : Prop :=
  (∀ k, k ∈ keys → is_Some (nodes c !! k)) ∧
  extended c c' ∧
  (Forall (lp_wf (rpcs c)) lps → Forall (lp_wf (rpcs c')) lps').

(** An extraction that was to look up [keys] raised [e] and left [c']. *)
Definition extraction_error (keys : list string)
    (c c' : Core) (e : Exception) : Prop :=
  extended c c' ∧
  ∃ k, k ∈ keys ∧ nodes c !! k = None ∧ e = KeyError k.

(** ** Sample documents *)

Definition signature (op inp out : string) : OperationSignature :=
  {| operation_name := op;
     input_message_name := inp; input_message_stream := false;
     output_message_name := out; output_message_stream := false |}.

Definition entry_A : DockerInfoEntry :=
  {| di_container_name := "A"; ip_address := "10.0.0.1"; di_port := 9000 |}.

Definition entry_B : DockerInfoEntry :=
  {| di_container_name := "B"; ip_address := "10.0.0.2"; di_port := 9000 |}.

Definition entry_C : DockerInfoEntry :=
  {| di_container_name := "C"; ip_address := "10.0.0.3"; di_port := 9000 |}.

Definition dockerinfo_A : DockerInfo := {| docker_info_list := [entry_A] |}.

Definition dockerinfo_AB : DockerInfo :=
  {| docker_info_list := [entry_A; entry_B] |}.

Definition dockerinfo_ABC : DockerInfo :=
  {| docker_info_list := [entry_A; entry_B; entry_C] |}.

(** Two deployment records for container "A". *)
Definition dockerinfo_AA : DockerInfo :=
  {| docker_info_list :=
       [entry_A;
        {| di_container_name := "A"; ip_address := "10.0.0.9";
           di_port := 9001 |}] |}.

(** Scenario A: node "A" with the single operation "Solve", input "Empty",
    output "Result", both non-stream, connected to nothing. *)
Definition blueprint_A : Blueprint :=
  {| bp_nodes :=
       [ {| bp_container_name := "A";
            operation_signature_list :=
              [ {| operation_signature := signature "Solve" "Empty" "Result";
                   connected_to := [] |} ] |} ] |}.

(** Scenarios B and C: "A".Produce, output "Data", connected to
    "B".Consume, whose input message name is [consume_input]. *)
Definition blueprint_AB (consume_input : string) : Blueprint :=
  {| bp_nodes :=
       [ {| bp_container_name := "A";
            operation_signature_list :=
              [ {| operation_signature := signature "Produce" "Empty" "Data";
                   connected_to :=
                     [ {| con_container_name := "B";
                          con_operation_name := "Consume" |} ] |} ] |};
         {| bp_container_name := "B";
            operation_signature_list :=
              [ {| operation_signature :=
                     signature "Consume" consume_input "Out";
                   connected_to := [] |} ] |} ] |}.

(** Node "A" with the operation "Solve" of scenario A, connected to the
    operation "Consume" of the container [target], which is not a node of
    the blueprint. *)
Definition blueprint_A_to (target : string) : Blueprint :=
  {| bp_nodes :=
       [ {| bp_container_name := "A";
            operation_signature_list :=
              [ {| operation_signature := signature "Solve" "Empty" "Result";
                   connected_to :=
                     [ {| con_container_name := target;
                          con_operation_name := "Consume" |} ] |} ] |} ] |}.

(** The RPC of scenario A as [collect_rpc_and_link_infos] creates it. *)
Definition rpc_Solve : RPCInfo :=
  {| node := node_of_entry entry_A; operation := "Solve";
     input := {| name := "Empty"; stream := false |};
     output := {| name := "Result"; stream := false |};
     incoming := []; outgoing := [] |}.

(** The descriptor that [blueprint_A_to "B"] gives rise to. *)
Definition descriptor_Solve_to_B : LinkPartial :=
  {| lp_input := 0; lp_message_name := "Result";
     output_node := node_of_entry entry_B;
     output_operation := "Consume" |}.


(** ** The extraction as a comprehension *)

(** The operation signatures of the blueprint, each with its node, in
    document order. *)
Definition blueprint_signatures (bpjson : Blueprint)
  : list (BlueprintNode * SigConn) :=
  bp_node ← bp_nodes bpjson;
  sig_conn ← operation_signature_list bp_node;
  [(bp_node, sig_conn)].

(** The RPC that the [RPCInfo(...)] call builds for a signature of a node
    deployed as [ni]. *)
Definition rpc_of_signature (ni : NodeInfo) (sig : OperationSignature)
  : RPCInfo :=
  {| node := ni;
     operation := operation_name sig;
     input := {| name := input_message_name sig;
                 stream := input_message_stream sig |};
     output := {| name := output_message_name sig;
                  stream := output_message_stream sig |};
     incoming := [];
     outgoing := [] |}.

(** The RPCs of the signatures whose node is a key of [m]. *)
Definition extracted_rpcs (m : gmap string NodeInfo)
    (sigs : list (BlueprintNode * SigConn)) : list RPCInfo :=
  omap (λ p, (λ ni, rpc_of_signature ni (operation_signature p.2))
               <$> m !! bp_container_name p.1) sigs.

(** The descriptors of one signature, whose RPC is [rpc_id]: one for each
    connection whose target is a key of [m]. *)
Definition sig_descriptors (m : gmap string NodeInfo) (rpc_id : rpc_ref)
    (sig_conn : SigConn) : list LinkPartial :=
  omap (λ con, (λ target,
                  {| lp_input := rpc_id;
                     lp_message_name :=
                       output_message_name (operation_signature sig_conn);
                     output_node := target;
                     output_operation := con_operation_name con |})
               <$> m !! con_container_name con)
       (connected_to sig_conn).

(** The descriptors of a list of signatures whose RPCs are [rpc_id],
    [rpc_id + 1], ... *)
Fixpoint extracted_descriptors (m : gmap string NodeInfo) (rpc_id : rpc_ref)
    (sigs : list (BlueprintNode * SigConn)) : list LinkPartial :=
  match sigs with
  | [] => []
  | p :: sigs' =>
      sig_descriptors m rpc_id p.2 ++ extracted_descriptors m (S rpc_id) sigs'
  end.

(** [k] is the first of [keys] that is not a key of [m]. *)
Definition first_missing (m : gmap string NodeInfo) (keys : list string)
    (k : string) : Prop :=
  ∃ done rest, keys = done ++ k :: rest ∧
               (∀ k', k' ∈ done → is_Some (m !! k')) ∧ m !! k = None.

(** A chain: "A".Produce feeds "B".Consume, which feeds "C".Sink. *)
Definition blueprint_chain : Blueprint :=
  {| bp_nodes :=
       [ {| bp_container_name := "A";
            operation_signature_list :=
              [ {| operation_signature := signature "Produce" "Empty" "Data";
                   connected_to :=
                     [ {| con_container_name := "B";
                          con_operation_name := "Consume" |} ] |} ] |};
         {| bp_container_name := "B";
            operation_signature_list :=
              [ {| operation_signature := signature "Consume" "Data" "Out";
                   connected_to :=
                     [ {| con_container_name := "C";
                          con_operation_name := "Sink" |} ] |} ] |};
         {| bp_container_name := "C";
            operation_signature_list :=
              [ {| operation_signature := signature "Sink" "Out" "Done";
                   connected_to := [] |} ] |} ] |}.

(** The store after [collect_node_infos] on the chain, and after the whole
    run. *)
Definition chain_registered : Core :=
  (collect_node_infos blueprint_chain dockerinfo_ABC Core_class).1.

Definition chain_resolved : Core :=
  (test_orchestrator blueprint_chain dockerinfo_ABC Core_class).1.

(** The container names of the dockerinfo, in document order. *)
Definition container_names (dijson : DockerInfo) : list string :=
  di_container_name <$> docker_info_list dijson.

(** A blueprint whose only node, "Z", declares no operation. *)
Definition blueprint_idle : Blueprint :=
  {| bp_nodes :=
       [ {| bp_container_name := "Z"; operation_signature_list := [] |} ] |}.

(** What scenario B returns: the two RPCs, with the link in their lists,
    and the link. *)
Definition rpc_Produce_linked : RPCInfo :=
  {| node := node_of_entry entry_A; operation := "Produce";
     input := {| name := "Empty"; stream := false |};
     output := {| name := "Data"; stream := false |};
     incoming := []; outgoing := [0] |}.

Definition rpc_Consume_linked : RPCInfo :=
  {| node := node_of_entry entry_B; operation := "Consume";
     input := {| name := "Data"; stream := false |};
     output := {| name := "Out"; stream := false |};
     incoming := [0]; outgoing := [] |}.

Definition link_Produce_Consume : LinkInfo :=
  {| link_input := 0; link_output := 1; message_name := "Data" |}.

(** * Properties *)

(** ** Unfolding the loops *)

Lemma for_each_cons {A} (x : A) xs body c :
  for_each (x :: xs) body c =
  match body x c with
  | (c', inl e) => (c', inl e)
  | (c', inr _) => for_each xs body c'
  end.
Proof. reflexivity. Qed.


Lemma for_fold_cons {A S} (x : A) xs (body : S → A → M S) s c :
  for_fold (x :: xs) body s c =
  match body s x c with
  | (c', inl e) => (c', inl e)
  | (c', inr s') => for_fold xs body s' c'
  end.
Proof. reflexivity. Qed.

(** ** The node registry: [collect_node_infos] *)

Lemma registry_of_lookup_None dil k :
  k ∉ di_container_name <$> dil → registry_of dil !! k = None.
Proof.
  intros Hk. apply not_elem_of_list_to_map.
  by rewrite <- list_fmap_compose.
Qed.

Lemma extract_dockerinfo_spec dijson c :
  match extract_dockerinfo dijson c with
  | (c', inr _) =>
      all_new (docker_info_list dijson) c ∧
      nodes c' = registry_of (docker_info_list dijson) ∪ nodes c ∧
      rpcs c' = rpcs c ∧ links c' = links c
  | (c', inl e) =>
      ¬ all_new (docker_info_list dijson) c ∧
      (∃ k, e = ValueError_duplicate_container k) ∧
      rpcs c' = rpcs c ∧ links c' = links c
  end.
Proof.
  unfold extract_dockerinfo. destruct dijson as [dil]; simpl.
  revert c. induction dil as [|di dil IH]; intros c.
  - simpl. unfold ret, all_new, registry_of. simpl.
    split_and!; [constructor| |by rewrite (left_id_L ∅ (∪))|done|done].
    intros di Hdi. by apply elem_of_nil in Hdi.
  - rewrite for_each_cons. unfold bind at 1, get at 1. simpl.
    destruct (nodes c !! di_container_name di) as [old|] eqn:Hlook.
    + unfold raise. split_and!; [|eauto|done|done].
      intros [_ Hnew]. rewrite Hnew in Hlook; [done|]. apply elem_of_cons; auto.
    + unfold modify. specialize (IH (nodes_setitem (di_container_name di)
                                       (node_of_entry di) c)).
      fold (node_of_entry di).
      destruct (for_each dil _ _) as [c' [e|[]]]; simpl in IH.
      * destruct IH as (Hnot & He & Hr & Hl). split_and!; [|done..].
        intros [Hnd Hnew]. apply Hnot. apply NoDup_cons in Hnd as [Hnotin Hnd].
        split; [done|]. intros di' Hdi'. simpl.
        rewrite lookup_insert_ne.
        -- apply Hnew, elem_of_cons; auto.
        -- intros Heq. apply Hnotin. rewrite Heq.
           by apply list_elem_of_fmap_2.
      * destruct IH as ((Hnd & Hnew) & Hn & Hr & Hl). simpl in *.
        assert (Hnotin : di_container_name di ∉ di_container_name <$> dil).
        { intros (di' & Heq & Hdi')%list_elem_of_fmap.
          specialize (Hnew di' Hdi'). rewrite <- Heq in Hnew.
          by rewrite lookup_insert_eq in Hnew. }
        split_and!; [split| |done|done].
        -- simpl. by apply NoDup_cons.
        -- intros di' [->|Hdi']%elem_of_cons; [done|].
           specialize (Hnew di' Hdi').
           rewrite lookup_insert_ne in Hnew; [done|].
           intros Heq. apply Hnotin. rewrite Heq. by apply list_elem_of_fmap_2.
        -- rewrite Hn. unfold registry_of. simpl.
           rewrite <- insert_union_l, <- insert_union_r; [done|].
           by apply registry_of_lookup_None.
Qed.

Lemma verify_blueprint_spec bpjson c :
  match verify_blueprint bpjson c with
  | (c', inr _) =>
      c' = c ∧ ∀ n, n ∈ bp_nodes bpjson → is_Some (nodes c !! bp_container_name n)
  | (c', inl e) =>
      c' = c ∧
      ∃ n, n ∈ bp_nodes bpjson ∧ nodes c !! bp_container_name n = None ∧
           e = ValueError_not_in_dockerinfo (bp_container_name n)
  end.
Proof.
  unfold verify_blueprint. destruct bpjson as [ns]; simpl.
  induction ns as [|n ns IH].
  - simpl. unfold ret. split; [done|]. intros n Hn. by apply elem_of_nil in Hn.
  - rewrite for_each_cons. unfold bind at 1, get at 1. simpl.
    destruct (nodes c !! bp_container_name n) as [ni|] eqn:Hlook.
    + unfold ret at 1.
      destruct (for_each ns _ c) as [c' [e|[]]].
      * destruct IH as (-> & n' & Hn' & Hnone & ->). split; [done|].
        exists n'. split_and!; [|done..]. apply elem_of_cons; auto.
      * destruct IH as (-> & Hall). split; [done|].
        intros n' [->|Hn']%elem_of_cons; [by rewrite Hlook|by apply Hall].
    + unfold raise. split; [done|]. exists n.
      split_and!; [|done..]. apply elem_of_cons; auto.
Qed.

(** [collect_node_infos] is its two loops, one after the other. *)
Lemma collect_node_infos_unfold bpjson dijson c :
  collect_node_infos bpjson dijson c =
  match extract_dockerinfo dijson c with
  | (c1, inl e) => (c1, inl e)
  | (c1, inr _) =>
      match verify_blueprint bpjson c1 with
      | (c2, inl e) => (c2, inl e)
      | (c2, inr _) => (c2, inr (nodes c2))
      end
  end.
Proof.
  unfold collect_node_infos, bind.
  destruct (extract_dockerinfo dijson c) as [c1 [e|[]]]; [done|].
  by destruct (verify_blueprint bpjson c1) as [c2 [e|[]]].
Qed.

Lemma registry_of_lookup dil di :
  NoDup (di_container_name <$> dil) → di ∈ dil →
  registry_of dil !! di_container_name di = Some (node_of_entry di).
Proof.
  intros Hnd Hdi. apply elem_of_list_to_map.
  - by rewrite <- list_fmap_compose.
  - by apply (list_elem_of_fmap_2 (λ di, (di_container_name di, node_of_entry di))).
Qed.

Lemma registry_of_size dil :
  NoDup (di_container_name <$> dil) → size (registry_of dil) = length dil.
Proof.
  intros Hnd. unfold registry_of. rewrite map_size_list_to_map.
  - by rewrite length_fmap.
  - by rewrite <- list_fmap_compose.
Qed.

(** C5. A dockerinfo in which two entries share a container name makes
    [collect_node_infos] raise the duplicate-container [ValueError],
    whatever the blueprint and the registry content.  When the names are
    pairwise distinct, the registry starts empty and every blueprint node is
    deployed, the call returns a mapping that holds, for each entry, the
    node built from it under its container name, and nothing else. *)
Theorem collect_node_infos_identities bpjson dijson c :
  (¬ NoDup (di_container_name <$> docker_info_list dijson) →
   ∃ k, (collect_node_infos bpjson dijson c).2 =
        inl (ValueError_duplicate_container k)) ∧
  (NoDup (di_container_name <$> docker_info_list dijson) →
   nodes c = ∅ →
   (∀ n, n ∈ bp_nodes bpjson →
         bp_container_name n ∈ di_container_name <$> docker_info_list dijson) →
   ∃ c' m, collect_node_infos bpjson dijson c = (c', inr m) ∧
           nodes c' = m ∧
           (∀ di, di ∈ docker_info_list dijson →
                  m !! di_container_name di = Some (node_of_entry di)) ∧
           size m = length (docker_info_list dijson)).
Proof.
  rewrite collect_node_infos_unfold.
  pose proof (extract_dockerinfo_spec dijson c) as Hex.
  destruct (extract_dockerinfo dijson c) as [c1 [e|[]]].
  - destruct Hex as (Hnot & [k ->] & _). split; [by eauto|].
    intros Hnd Hempty _. exfalso. apply Hnot. split; [done|].
    intros di _. by rewrite Hempty.
  - destruct Hex as ([Hnd _] & Hn & _). split; [done|].
    intros _ Hempty Hbp. rewrite Hempty, (right_id_L ∅ (∪)) in Hn.
    pose proof (verify_blueprint_spec bpjson c1) as Hv.
    destruct (verify_blueprint bpjson c1) as [c2 [e|[]]].
    + destruct Hv as (-> & n & Hin & Hnone & _). exfalso.
      apply Hbp in Hin as (di & Heq & Hdi)%list_elem_of_fmap.
      rewrite Hn, Heq, registry_of_lookup in Hnone; done.
    + destruct Hv as (-> & _). exists c1, (nodes c1).
      split_and!; [done|done| |].
      * intros di Hdi. rewrite Hn. by apply registry_of_lookup.
      * rewrite Hn. by apply registry_of_size.
Qed.

Lemma collect_node_infos_identities_witness :
  (∃ k, (collect_node_infos blueprint_A dockerinfo_AA Core_class).2 =
        inl (ValueError_duplicate_container k)) ∧
  (∃ c' m, collect_node_infos blueprint_A dockerinfo_AB Core_class = (c', inr m) ∧
           nodes c' = m ∧
           (∀ di, di ∈ docker_info_list dockerinfo_AB →
                  m !! di_container_name di = Some (node_of_entry di)) ∧
           size m = length (docker_info_list dockerinfo_AB)).
Proof.
  split.
  - apply (collect_node_infos_identities blueprint_A dockerinfo_AA Core_class).
    vm_compute. intros Hnd. inversion Hnd as [|? ? Hnotin _]; subst.
    apply Hnotin. constructor.
  - apply (collect_node_infos_identities blueprint_A dockerinfo_AB Core_class).
    + vm_compute. repeat constructor; intros Hin;
        repeat (inversion Hin; subst; clear Hin; try rename H1 into Hin).
    + reflexivity.
    + intros n Hn. simpl in Hn. apply list_elem_of_singleton in Hn as ->.
      simpl. constructor.
Defined.

(** C6. Once the dockerinfo loop has gone through, [collect_node_infos]
    raises the not-present-in-dockerinfo [ValueError] exactly when some
    blueprint node's container name is not a key of the mapping the loop
    built, and it names such a node.  Otherwise it returns that mapping:
    entries of the dockerinfo that no blueprint node mentions play no part. *)
Theorem collect_node_infos_missing bpjson dijson c :
  (extract_dockerinfo dijson c).2 = inr tt →
  match (collect_node_infos bpjson dijson c).2 with
  | inl e =>
      ∃ n, n ∈ bp_nodes bpjson ∧
           nodes (extract_dockerinfo dijson c).1 !! bp_container_name n = None ∧
           e = ValueError_not_in_dockerinfo (bp_container_name n)
  | inr m =>
      m = nodes (extract_dockerinfo dijson c).1 ∧
      ∀ n, n ∈ bp_nodes bpjson → is_Some (m !! bp_container_name n)
  end.
Proof.
  rewrite collect_node_infos_unfold.
  destruct (extract_dockerinfo dijson c) as [c1 [e|[]]]; simpl; [done|].
  intros _. pose proof (verify_blueprint_spec bpjson c1) as Hv.
  destruct (verify_blueprint bpjson c1) as [c2 [e|[]]]; simpl.
  - by destruct Hv as (-> & Hn).
  - by destruct Hv as (-> & Hall).
Qed.

(** The dockerinfo deploys "A", "B" and "C"; the blueprint only has "A". *)
Lemma collect_node_infos_missing_witness :
  ∃ m, (collect_node_infos blueprint_A dockerinfo_ABC Core_class).2 = inr m ∧
       m = nodes (extract_dockerinfo dockerinfo_ABC Core_class).1 ∧
       ∀ n, n ∈ bp_nodes blueprint_A → is_Some (m !! bp_container_name n).
Proof.
  pose proof (collect_node_infos_missing blueprint_A dockerinfo_ABC Core_class
                eq_refl) as H.
  destruct (collect_node_infos blueprint_A dockerinfo_ABC Core_class).2
    as [e|m] eqn:Hr.
  - exfalso. vm_compute in Hr. discriminate Hr.
  - exists m. split; [reflexivity|exact H].
Defined.

(** ** The link resolver: one turn of the interlinking loop *)

Lemma incoming_links_static lps r r' :
  rpc_static r = rpc_static r' → incoming_links lps r = incoming_links lps r'.
Proof. unfold rpc_static, incoming_links. intros [= -> -> _ _]. done. Qed.

Lemma expected_incoming_links_static r r' :
  rpc_static r = rpc_static r' →
  expected_incoming_links r = expected_incoming_links r'.
Proof. unfold rpc_static, expected_incoming_links. intros [= _ _ -> _]. done. Qed.

Lemma cardinality_ok_static lps r r' :
  rpc_static r = rpc_static r' → cardinality_ok lps r ↔ cardinality_ok lps r'.
Proof.
  intros Hs. unfold cardinality_ok.
  by rewrite (incoming_links_static _ _ _ Hs),
             (expected_incoming_links_static _ _ Hs).
Qed.

Lemma cardinality_error_static lps i r r' :
  rpc_static r = rpc_static r' →
  cardinality_error lps i r = cardinality_error lps i r'.
Proof.
  intros Hs. unfold cardinality_error.
  rewrite (incoming_links_static _ _ _ Hs),
          (expected_incoming_links_static _ _ Hs).
  unfold rpc_static in Hs. by injection Hs as _ _ -> _.
Qed.

Lemma static_lookup (rs rs' : list RPCInfo) i r :
  rpc_static <$> rs = rpc_static <$> rs' → rs !! i = Some r →
  ∃ r', rs' !! i = Some r' ∧ rpc_static r = rpc_static r'.
Proof.
  intros Heq Hi.
  assert ((rpc_static <$> rs') !! i = Some (rpc_static r)) as Hi'.
  { rewrite <- Heq, list_lookup_fmap, Hi. done. }
  rewrite list_lookup_fmap in Hi'.
  destruct (rs' !! i) as [r'|]; [|done]. simpl in Hi'.
  exists r'. split; [done|]. congruence.
Qed.

Lemma static_length (rs rs' : list RPCInfo) :
  rpc_static <$> rs = rpc_static <$> rs' → length rs = length rs'.
Proof. intros H. by rewrite <- (length_fmap rpc_static rs), H, length_fmap. Qed.

Lemma static_alter (f : RPCInfo → RPCInfo) i (rs : list RPCInfo) :
  (∀ r, rpc_static (f r) = rpc_static r) →
  rpc_static <$> alter f i rs = rpc_static <$> rs.
Proof.
  intros Hf. apply list_eq. intros j. rewrite !list_lookup_fmap.
  destruct (decide (i = j)) as [->|Hne].
  - rewrite list_lookup_alter_eq. destruct (rs !! j); simpl; [|done].
    by rewrite Hf.
  - by rewrite list_lookup_alter_ne.
Qed.

Lemma add_link_static lp i c :
  rpc_static <$> rpcs (add_link lp i c) = rpc_static <$> rpcs c.
Proof. unfold add_link. simpl. by rewrite !static_alter. Qed.

Lemma add_link_nodes lp i c : nodes (add_link lp i c) = nodes c.
Proof. done. Qed.

(** The three outcomes of the loop body. *)
Lemma interlink_rpc_fail lps i c rpc :
  rpcs c !! i = Some rpc → ¬ cardinality_ok lps rpc →
  interlink_rpc lps i c = (c, inl (cardinality_error lps i rpc)).
Proof.
  intros Hi Hbad. unfold interlink_rpc, bind, get. rewrite Hi.
  unfold cardinality_ok in Hbad. by rewrite decide_True.
Qed.

Lemma interlink_rpc_empty lps i c rpc :
  rpcs c !! i = Some rpc → cardinality_ok lps rpc →
  name (input rpc) = "Empty"%string →
  interlink_rpc lps i c = (c, inr tt).
Proof.
  intros Hi Hok Hempty. unfold interlink_rpc, bind, get. rewrite Hi.
  unfold cardinality_ok in Hok. rewrite decide_False by (intros Hn; by apply Hn).
  unfold expected_incoming_links.
  destruct (decide (name (input rpc) = "Empty"%string)); [|done].
  rewrite decide_False by lia. done.
Qed.

Lemma interlink_rpc_link lps i c rpc :
  rpcs c !! i = Some rpc → cardinality_ok lps rpc →
  name (input rpc) ≠ "Empty"%string →
  ∃ lp, incoming_links lps rpc = [lp] ∧
        interlink_rpc lps i c = (add_link lp i c, inr tt).
Proof.
  intros Hi Hok Hne. unfold interlink_rpc, bind, get. rewrite Hi.
  unfold cardinality_ok in Hok. rewrite decide_False by (intros Hn; by apply Hn).
  unfold expected_incoming_links in *.
  destruct (decide (name (input rpc) = "Empty"%string)); [done|].
  rewrite decide_True by lia.
  destruct (incoming_links lps rpc) as [|lp [|lp' rest]]; [done| |done].
  exists lp. done.
Qed.

Lemma interlink_rpc_static lps i c :
  rpc_static <$> rpcs (interlink_rpc lps i c).1 = rpc_static <$> rpcs c.
Proof.
  destruct (rpcs c !! i) as [rpc|] eqn:Hi.
  - destruct (decide (cardinality_ok lps rpc)) as [Hok|Hbad].
    + destruct (decide (name (input rpc) = "Empty"%string)) as [He|Hne].
      * by rewrite (interlink_rpc_empty _ _ _ _ Hi Hok He).
      * destruct (interlink_rpc_link _ _ _ _ Hi Hok Hne) as (lp & _ & ->).
        simpl. apply add_link_static.
    + by rewrite (interlink_rpc_fail _ _ _ _ Hi Hbad).
  - unfold interlink_rpc, bind, get. by rewrite Hi.
Qed.

(** ** The link resolver: the interlinking loop *)

(** The loop from position [k] on, with an invariant [I] of the positions
    done and the store.  [rs0] is the content of [self.rpcs] when the loop
    starts. *)
Lemma interlink_loop lps (I : nat → Core → Prop) (rs0 : list RPCInfo) :
  (∀ k c rpc, I k c → rpc_static <$> rpcs c = rpc_static <$> rs0 →
     rs0 !! k = Some rpc → cardinality_ok lps rpc →
     name (input rpc) = "Empty"%string → I (S k) c) →
  (∀ k c rpc lp, I k c → rpc_static <$> rpcs c = rpc_static <$> rs0 →
     rs0 !! k = Some rpc → incoming_links lps rpc = [lp] →
     name (input rpc) ≠ "Empty"%string → I (S k) (add_link lp k c)) →
  ∀ n k c, k + n = length rs0 →
    rpc_static <$> rpcs c = rpc_static <$> rs0 → I k c →
    match for_each (seq k n) (interlink_rpc lps) c with
    | (c', inr _) =>
        I (k + n) c' ∧ rpc_static <$> rpcs c' = rpc_static <$> rs0 ∧
        ∀ i r, k ≤ i → rs0 !! i = Some r → cardinality_ok lps r
    | (c', inl e) =>
        rpc_static <$> rpcs c' = rpc_static <$> rs0 ∧
        ∃ i r, k ≤ i ∧ rs0 !! i = Some r ∧ ¬ cardinality_ok lps r ∧
               (∀ j r', k ≤ j < i → rs0 !! j = Some r' → cardinality_ok lps r') ∧
               e = cardinality_error lps i r ∧ I i c'
    end.
Proof.
  intros Hempty Hlink. induction n as [|n IH]; intros k c Hlen Hst HI.
  - simpl. unfold ret. rewrite Nat.add_0_r. split_and!; [done|done|].
    intros i r Hki Hi. apply lookup_lt_Some in Hi. lia.
  - change (seq k (S n)) with (k :: seq (S k) n). rewrite for_each_cons.
    destruct (lookup_lt_is_Some_2 rs0 k) as [rpc0 Hk0]; [lia|].
    destruct (static_lookup rs0 (rpcs c) k rpc0) as (rpc & Hk & Hs); [done..|].
    assert (Hnext : ∀ c1, rpc_static <$> rpcs c1 = rpc_static <$> rs0 →
              I (S k) c1 → cardinality_ok lps rpc0 →
              match for_each (seq (S k) n) (interlink_rpc lps) c1 with
              | (c', inr _) =>
                  I (k + S n) c' ∧ rpc_static <$> rpcs c' = rpc_static <$> rs0 ∧
                  ∀ i r, k ≤ i → rs0 !! i = Some r → cardinality_ok lps r
              | (c', inl e) =>
                  rpc_static <$> rpcs c' = rpc_static <$> rs0 ∧
                  ∃ i r, k ≤ i ∧ rs0 !! i = Some r ∧ ¬ cardinality_ok lps r ∧
                         (∀ j r', k ≤ j < i → rs0 !! j = Some r' →
                                  cardinality_ok lps r') ∧
                         e = cardinality_error lps i r ∧ I i c'
              end).
    { intros c1 Hst1 HI1 Hok0. specialize (IH (S k) c1).
      destruct (for_each (seq (S k) n) (interlink_rpc lps) c1) as [c' [e|[]]].
      - destruct IH as (Hst' & i & r & Hki & Hi & Hbad & Hbefore & He & HIi);
          [lia|done|done|].
        split; [done|]. exists i, r. split_and!; [lia|done|done| |done|done].
        intros j r' Hj Hjr. destruct (decide (j = k)) as [->|Hne].
        + rewrite Hk0 in Hjr. by injection Hjr as <-.
        + apply (Hbefore j); [lia|done].
      - destruct IH as (HI' & Hst' & Hall); [lia|done|done|].
        replace (k + S n) with (S k + n) by lia. split_and!; [done|done|].
        intros i r Hki Hi. destruct (decide (i = k)) as [->|Hne].
        + rewrite Hk0 in Hi. by injection Hi as <-.
        + apply (Hall i); [lia|done]. }
    destruct (decide (cardinality_ok lps rpc)) as [Hok|Hbad].
    + assert (Hok0 : cardinality_ok lps rpc0)
        by (by apply (cardinality_ok_static lps rpc0 rpc)).
      destruct (decide (name (input rpc) = "Empty"%string)) as [He|Hne].
      * rewrite (interlink_rpc_empty _ _ _ _ Hk Hok He).
        apply Hnext; [done| |done].
        apply (Hempty k c rpc0); [done..|].
        unfold rpc_static in Hs. injection Hs as _ _ Hin _. by rewrite Hin.
      * destruct (interlink_rpc_link _ _ _ _ Hk Hok Hne) as (lp & Hlp & ->).
        apply Hnext; [by rewrite add_link_static| |done].
        apply (Hlink k c rpc0 lp); [done..| |].
        -- by rewrite (incoming_links_static lps rpc0 rpc).
        -- unfold rpc_static in Hs. injection Hs as _ _ Hin _. by rewrite Hin.
    + rewrite (interlink_rpc_fail _ _ _ _ Hk Hbad). split; [done|].
      exists k, rpc0. split_and!; [done|done| | | |done].
      * by rewrite (cardinality_ok_static lps rpc0 rpc).
      * intros j r' Hj. lia.
      * by apply cardinality_error_static.
Qed.

(** The loop as [interlink] runs it, with an invariant. *)
Lemma interlink_inv lps (I : nat → Core → Prop) c :
  (∀ k c1 rpc, I k c1 → rpc_static <$> rpcs c1 = rpc_static <$> rpcs c →
     rpcs c !! k = Some rpc → cardinality_ok lps rpc →
     name (input rpc) = "Empty"%string → I (S k) c1) →
  (∀ k c1 rpc lp, I k c1 → rpc_static <$> rpcs c1 = rpc_static <$> rpcs c →
     rpcs c !! k = Some rpc → incoming_links lps rpc = [lp] →
     name (input rpc) ≠ "Empty"%string → I (S k) (add_link lp k c1)) →
  I 0 c →
  match interlink lps c with
  | (c', inr _) =>
      I (length (rpcs c)) c' ∧ rpc_static <$> rpcs c' = rpc_static <$> rpcs c ∧
      ∀ i r, rpcs c !! i = Some r → cardinality_ok lps r
  | (c', inl e) =>
      rpc_static <$> rpcs c' = rpc_static <$> rpcs c ∧
      ∃ i r, rpcs c !! i = Some r ∧ ¬ cardinality_ok lps r ∧
             (∀ j r', j < i → rpcs c !! j = Some r' → cardinality_ok lps r') ∧
             e = cardinality_error lps i r ∧ I i c'
  end.
Proof.
  intros Hempty Hlink H0. unfold interlink, bind, get.
  pose proof (interlink_loop lps I (rpcs c) Hempty Hlink (length (rpcs c)) 0 c
                eq_refl eq_refl H0) as Hloop.
  destruct (for_each _ _ c) as [c' [e|[]]].
  - destruct Hloop as (Hst & i & r & _ & Hi & Hbad & Hbefore & He & HI).
    split; [done|]. exists i, r. split_and!; [done|done| |done|done].
    intros j r' Hj. apply Hbefore. lia.
  - destruct Hloop as (HI & Hst & Hall). split_and!; [done|done|].
    intros i r. apply Hall. lia.
Qed.

(** C1. Whatever RPCs [self.rpcs] holds and whatever descriptors were
    collected, the interlinking loop goes through exactly when every RPC is
    matched by as many descriptors as expected: none when its input message
    name is "Empty", one otherwise.  If not, it raises the [RuntimeError] for
    the first RPC whose count differs, with the observed and the expected
    count.  In scenario C, where "A".Produce is connected to "B".Consume and
    the input of Consume is "Empty", the error reports 1 observed and 0
    expected. *)
Theorem interlink_cardinality :
  (∀ link_partial c,
     match (interlink link_partial c).2 with
     | inr _ =>
         ∀ r, r ∈ rpcs c →
           length (incoming_links link_partial r) =
           if decide (name (input r) = "Empty"%string) then 0 else 1
     | inl e =>
         ∃ i r, rpcs c !! i = Some r ∧
           length (incoming_links link_partial r) ≠ expected_incoming_links r ∧
           (∀ j r', j < i → rpcs c !! j = Some r' →
              length (incoming_links link_partial r') =
              expected_incoming_links r') ∧
           e = RuntimeError_incoming_links
                 (length (incoming_links link_partial r)) i (name (input r))
                 (expected_incoming_links r) (incoming_links link_partial r)
     end) ∧
  (test_orchestrator (blueprint_AB "Empty") dockerinfo_AB Core_class).2 =
  inl (RuntimeError_incoming_links 1 1 "Empty" 0
         [ {| lp_input := 0; lp_message_name := "Data";
              output_node := node_of_entry entry_B;
              output_operation := "Consume" |} ]).
Proof.
  split; [|by vm_compute].
  intros lps c.
  pose proof (interlink_inv lps (λ _ _, True) c) as H.
  destruct (interlink lps c) as [c' [e|[]]]; simpl.
  - destruct H as (_ & i & r & Hi & Hbad & Hbefore & He & _); [done..|].
    exists i, r. done.
  - destruct H as (_ & _ & Hall); [done..|].
    intros r (i & Hi)%list_elem_of_lookup. by apply (Hall i).
Qed.

(** ** The operation extractor: [extract_rpcs] *)

Lemma extended_refl c : extended c c.
Proof.
  split_and!; [done..|]. exists []. by rewrite (right_id_L [] (++)).
Qed.

Lemma extended_trans c1 c2 c3 : extended c1 c2 → extended c2 c3 → extended c1 c3.
Proof.
  intros (Hn1 & Hl1 & new1 & Hr1 & Hf1) (Hn2 & Hl2 & new2 & Hr2 & Hf2).
  split_and!; [congruence..|]. exists (new1 ++ new2). split.
  - by rewrite Hr2, Hr1, (assoc_L (++)).
  - by apply Forall_app.
Qed.

Lemma lp_wf_app rs new lp : lp_wf rs lp → lp_wf (rs ++ new) lp.
Proof.
  intros (p & Hp & Hm). exists p. split; [|done]. by apply lookup_app_l_Some.
Qed.

Lemma lp_wf_extended c c' lps :
  extended c c' → Forall (lp_wf (rpcs c)) lps → Forall (lp_wf (rpcs c')) lps.
Proof.
  intros (_ & _ & new & -> & _) Hwf. eapply Forall_impl; [exact Hwf|].
  intros lp. apply lp_wf_app.
Qed.

Lemma lp_wf_static rs rs' lp :
  rpc_static <$> rs = rpc_static <$> rs' → lp_wf rs lp → lp_wf rs' lp.
Proof.
  intros Hst (p & Hp & Hm).
  destruct (static_lookup rs rs' _ p Hst Hp) as (p' & Hp' & Hs).
  exists p'. split; [done|]. unfold rpc_static in Hs. congruence.
Qed.

Lemma extraction_ok_nil c lps : extraction_ok [] c lps c lps.
Proof.
  split_and!; [|apply extended_refl|done].
  intros k Hk. by apply elem_of_nil in Hk.
Qed.

Lemma extraction_ok_app keys1 keys2 c lps c1 lps1 c2 lps2 :
  extraction_ok keys1 c lps c1 lps1 → extraction_ok keys2 c1 lps1 c2 lps2 →
  extraction_ok (keys1 ++ keys2) c lps c2 lps2.
Proof.
  intros (Hk1 & He1 & Hw1) (Hk2 & He2 & Hw2). split_and!.
  - intros k [Hk|Hk]%elem_of_app; [by apply Hk1|].
    destruct He1 as (<- & _). by apply Hk2.
  - by eapply extended_trans.
  - auto.
Qed.

Lemma extraction_error_l keys1 keys2 c c' e :
  extraction_error keys1 c c' e → extraction_error (keys1 ++ keys2) c c' e.
Proof.
  intros (He & k & Hk & Hnone & ->). split; [done|]. exists k.
  split_and!; [|done..]. apply elem_of_app; auto.
Qed.

Lemma extraction_error_r keys1 keys2 c lps c1 lps1 c2 e :
  extraction_ok keys1 c lps c1 lps1 → extraction_error keys2 c1 c2 e →
  extraction_error (keys1 ++ keys2) c c2 e.
Proof.
  intros (_ & He1 & _) (He2 & k & Hk & Hnone & ->). split.
  - by eapply extended_trans.
  - exists k. destruct He1 as (<- & _).
    split_and!; [|done..]. apply elem_of_app; auto.
Qed.

(** A loop whose every turn is an extraction is an extraction. *)
Lemma for_fold_extraction {A} (keys : A → list string) (xs : list A)
    (body : list LinkPartial → A → M (list LinkPartial)) :
  (∀ x lps c,
     match body lps x c with
     | (c', inr lps') => extraction_ok (keys x) c lps c' lps'
     | (c', inl e) => extraction_error (keys x) c c' e
     end) →
  ∀ lps c,
    match for_fold xs body lps c with
    | (c', inr lps') => extraction_ok (xs ≫= keys) c lps c' lps'
    | (c', inl e) => extraction_error (xs ≫= keys) c c' e
    end.
Proof.
  intros Hbody. induction xs as [|x xs IH]; intros lps c.
  - simpl. unfold ret. apply extraction_ok_nil.
  - rewrite for_fold_cons. specialize (Hbody x lps c).
    change ((x :: xs) ≫= keys) with (keys x ++ (xs ≫= keys)).
    destruct (body lps x c) as [c1 [e|lps1]].
    + by apply extraction_error_l.
    + specialize (IH lps1 c1).
      destruct (for_fold xs body lps1 c1) as [c2 [e|lps2]].
      * by eapply extraction_error_r.
      * by eapply extraction_ok_app.
Qed.

(** The loop over [sig_conn['connected_to']]. *)
Lemma connected_to_loop rpc_id msg (cons : list Connection) lps c :
  match for_fold cons (λ link_partial con,
          target <- nodes_getitem (con_container_name con) ;;
          ret (link_partial ++
                 [ {| lp_input := rpc_id;
                      lp_message_name := msg;
                      output_node := target;
                      output_operation := con_operation_name con |} ]))
        lps c with
  | (c', inr lps') =>
      c' = c ∧
      (∀ k, k ∈ con_container_name <$> cons → is_Some (nodes c !! k)) ∧
      ∃ new, lps' = lps ++ new ∧
             Forall (λ lp, lp_input lp = rpc_id ∧ lp_message_name lp = msg) new
  | (c', inl e) =>
      c' = c ∧
      ∃ k, k ∈ con_container_name <$> cons ∧ nodes c !! k = None ∧
           e = KeyError k
  end.
Proof.
  revert lps. induction cons as [|con cons IH]; intros lps.
  - simpl. unfold ret. split_and!; [done| |].
    + intros k Hk. by apply elem_of_nil in Hk.
    + exists []. by rewrite (right_id_L [] (++)).
  - rewrite for_fold_cons. unfold bind at 1, nodes_getitem, bind, get.
    destruct (nodes c !! con_container_name con) as [target|] eqn:Hlook.
    + unfold ret at 1 2. match goal with |- context [for_fold cons _ ?l c] =>
        specialize (IH l) end.
      destruct (for_fold cons _ _ c) as [c' [e|lps']].
      * destruct IH as (-> & k & Hk & Hnone & ->). split; [done|].
        exists k. split_and!; [|done..]. rewrite fmap_cons.
        apply elem_of_cons; auto.
      * destruct IH as (-> & Hall & new & -> & Hnew). split_and!; [done| |].
        -- intros k. rewrite fmap_cons.
           intros [->|Hk]%elem_of_cons; [by rewrite Hlook|by apply Hall].
        -- eexists (_ :: new). split; [by rewrite <- (assoc_L (++))|].
           by constructor.
    + unfold raise. split; [done|]. exists (con_container_name con).
      split_and!; [|done..]. rewrite fmap_cons. apply elem_of_cons; auto.
Qed.

Lemma extract_sig_conn_spec bp_node lps sig_conn c :
  match extract_sig_conn bp_node lps sig_conn c with
  | (c', inr lps') => extraction_ok (sig_conn_keys bp_node sig_conn) c lps c' lps'
  | (c', inl e) => extraction_error (sig_conn_keys bp_node sig_conn) c c' e
  end.
Proof.
  unfold extract_sig_conn, sig_conn_keys.
  unfold bind at 1, nodes_getitem at 1, bind at 1, get at 1.
  destruct (nodes c !! bp_container_name bp_node) as [ni|] eqn:Hnode.
  - unfold ret at 1, bind at 1, get at 1, bind at 1.
    match goal with |- context [for_fold _ ?b lps c] =>
      pose proof (connected_to_loop (length (rpcs c))
                    (output_message_name (operation_signature sig_conn))
                    (connected_to sig_conn) lps c) as Hloop end.
    destruct (for_fold (connected_to sig_conn) _ lps c) as [c' [e|lps']].
    + destruct Hloop as (-> & k & Hk & Hnone & ->). split.
      * apply extended_refl.
      * exists k. split_and!; [|done..]. apply elem_of_cons; auto.
    + destruct Hloop as (-> & Hall & new & -> & Hnew).
      unfold bind, modify, ret. split_and!.
      * intros k [->|Hk]%elem_of_cons; [by rewrite Hnode|by apply Hall].
      * split_and!; [done..|]. eexists [_]. split; [done|].
        by repeat constructor.
      * intros Hwf. simpl. apply Forall_app. split.
        -- eapply Forall_impl; [exact Hwf|]. intros lp. apply lp_wf_app.
        -- eapply Forall_impl; [exact Hnew|]. intros lp [Hin Hmsg].
           eexists. rewrite Hin, Hmsg.
           split; [by rewrite lookup_app_r, Nat.sub_diag|done].
  - unfold raise. split; [apply extended_refl|].
    exists (bp_container_name bp_node). split_and!; [|done..].
    apply elem_of_cons; auto.
Qed.

Lemma extract_rpcs_spec bpjson c :
  match extract_rpcs bpjson c with
  | (c', inr lps) => extraction_ok (blueprint_keys bpjson) c [] c' lps
  | (c', inl e) => extraction_error (blueprint_keys bpjson) c c' e
  end.
Proof.
  unfold extract_rpcs, blueprint_keys.
  apply (for_fold_extraction
           (λ bp_node, operation_signature_list bp_node ≫= sig_conn_keys bp_node)).
  intros bp_node lps c1.
  apply (for_fold_extraction (sig_conn_keys bp_node)).
  intros sig_conn lps1 c2. apply extract_sig_conn_spec.
Qed.

(** [collect_rpc_and_link_infos] is its two phases, one after the other. *)
Lemma collect_rpc_and_link_infos_unfold bpjson c :
  collect_rpc_and_link_infos bpjson c =
  match extract_rpcs bpjson c with
  | (c1, inl e) => (c1, inl e)
  | (c1, inr lps) =>
      match interlink lps c1 with
      | (c2, inl e) => (c2, inl e)
      | (c2, inr _) => (c2, inr (rpcs c2, links c2))
      end
  end.
Proof.
  unfold collect_rpc_and_link_infos, bind at 1.
  destruct (extract_rpcs bpjson c) as [c1 [e|lps]]; [done|].
  unfold bind, get, ret. by destruct (interlink lps c1) as [c2 [e|[]]].
Qed.

Lemma elem_of_blueprint_keys bpjson k :
  k ∈ blueprint_keys bpjson ↔
  ∃ n sc, n ∈ bp_nodes bpjson ∧ sc ∈ operation_signature_list n ∧
          k ∈ sig_conn_keys n sc.
Proof.
  unfold blueprint_keys. rewrite list_elem_of_bind. split.
  - intros (n & (sc & Hk & Hsc)%list_elem_of_bind & Hn). eauto.
  - intros (n & sc & Hn & Hsc & Hk). exists n. split; [|done].
    apply list_elem_of_bind. eauto.
Qed.

(** C9. If the target container of some [connected_to] entry is not a key of
    [self.nodes], [collect_rpc_and_link_infos] raises a [KeyError] for a key
    that [self.nodes] lacks, and it does so in the extraction loops: the
    interlinking loop has not started, no link exists that did not exist
    before and the RPCs appended so far have empty [incoming] and [outgoing]
    lists.  Conversely the extraction loops go through as soon as the node of
    every operation signature and the target of every connection are keys of
    [self.nodes]; whether a target is also a node of the blueprint plays no
    part. *)
Theorem extraction_key_lookup bpjson c :
  ((∃ n sc con, n ∈ bp_nodes bpjson ∧ sc ∈ operation_signature_list n ∧
                con ∈ connected_to sc ∧
                nodes c !! con_container_name con = None) →
   ∃ c' k, collect_rpc_and_link_infos bpjson c = (c', inl (KeyError k)) ∧
           extract_rpcs bpjson c = (c', inl (KeyError k)) ∧
           nodes c !! k = None ∧ extended c c') ∧
  ((∀ n sc, n ∈ bp_nodes bpjson → sc ∈ operation_signature_list n →
      is_Some (nodes c !! bp_container_name n) ∧
      ∀ con, con ∈ connected_to sc →
             is_Some (nodes c !! con_container_name con)) →
   ∃ c' lps, extract_rpcs bpjson c = (c', inr lps) ∧ extended c c').
Proof.
  rewrite collect_rpc_and_link_infos_unfold.
  pose proof (extract_rpcs_spec bpjson c) as Hex.
  destruct (extract_rpcs bpjson c) as [c1 [e|lps]].
  - destruct Hex as (Hext & k & Hk & Hnone & ->). split.
    + intros _. exists c1, k. done.
    + intros Hall. exfalso.
      apply elem_of_blueprint_keys in Hk as (n & sc & Hn & Hsc & Hk).
      destruct (Hall n sc Hn Hsc) as [Hnode Hcons].
      apply elem_of_cons in Hk as [->|(con & -> & Hcon)%list_elem_of_fmap].
      * rewrite Hnone in Hnode. by destruct Hnode.
      * specialize (Hcons con Hcon). rewrite Hnone in Hcons. by destruct Hcons.
  - destruct Hex as (Hkeys & Hext & _). split.
    + intros (n & sc & con & Hn & Hsc & Hcon & Hnone). exfalso.
      assert (is_Some (nodes c !! con_container_name con)) as [x Hx].
      { apply Hkeys, elem_of_blueprint_keys. exists n, sc.
        split_and!; [done..|]. apply elem_of_cons. right.
        by apply list_elem_of_fmap_2. }
      congruence.
    + intros _. eauto.
Qed.

(** The dockerinfo deploys "A" only, then "A" and "B"; the blueprint has the
    node "A" only, whose operation is connected to "B". *)
Lemma extraction_key_lookup_witness :
  (∃ c' k,
     collect_rpc_and_link_infos (blueprint_A_to "B")
       (collect_node_infos (blueprint_A_to "B") dockerinfo_A Core_class).1 =
       (c', inl (KeyError k)) ∧
     extract_rpcs (blueprint_A_to "B")
       (collect_node_infos (blueprint_A_to "B") dockerinfo_A Core_class).1 =
       (c', inl (KeyError k)) ∧
     nodes (collect_node_infos (blueprint_A_to "B") dockerinfo_A Core_class).1
       !! k = None ∧
     extended (collect_node_infos (blueprint_A_to "B") dockerinfo_A Core_class).1
       c') ∧
  (∃ c' lps,
     extract_rpcs (blueprint_A_to "B")
       (collect_node_infos (blueprint_A_to "B") dockerinfo_AB Core_class).1 =
       (c', inr lps) ∧
     extended (collect_node_infos (blueprint_A_to "B") dockerinfo_AB Core_class).1
       c').
Proof.
  split.
  - apply (extraction_key_lookup (blueprint_A_to "B")).
    eexists _, _, _. split_and!.
    + apply list_elem_of_here.
    + apply list_elem_of_here.
    + apply list_elem_of_here.
    + vm_compute. reflexivity.
  - apply (extraction_key_lookup (blueprint_A_to "B")).
    intros n sc Hn Hsc. simpl in Hn. apply list_elem_of_singleton in Hn as ->.
    simpl in Hsc. apply list_elem_of_singleton in Hsc as ->.
    split.
    + vm_compute. eexists. reflexivity.
    + intros con Hcon. simpl in Hcon. apply list_elem_of_singleton in Hcon as ->.
      vm_compute. eexists. reflexivity.
Defined.

(** ** Descriptors that match no RPC *)

Lemma interlink_rpc_ext lps lps' i c :
  (∀ r, rpcs c !! i = Some r → incoming_links lps r = incoming_links lps' r) →
  interlink_rpc lps i c = interlink_rpc lps' i c.
Proof.
  intros H. unfold interlink_rpc, bind, get.
  destruct (rpcs c !! i) as [r|]; [|done]. by rewrite (H r eq_refl).
Qed.

Lemma interlink_loop_ext lps lps' (rs0 : list RPCInfo) :
  (∀ r, r ∈ rs0 → incoming_links lps r = incoming_links lps' r) →
  ∀ n k c, rpc_static <$> rpcs c = rpc_static <$> rs0 →
    for_each (seq k n) (interlink_rpc lps) c =
    for_each (seq k n) (interlink_rpc lps') c.
Proof.
  intros Hsame.
  assert (Hstep : ∀ i c, rpc_static <$> rpcs c = rpc_static <$> rs0 →
            interlink_rpc lps i c = interlink_rpc lps' i c).
  { intros i c Hst. apply interlink_rpc_ext. intros r Hr.
    destruct (static_lookup (rpcs c) rs0 i r Hst Hr) as (r0 & Hr0 & Hs).
    rewrite (incoming_links_static lps r r0 Hs),
            (incoming_links_static lps' r r0 Hs).
    apply Hsame. by apply list_elem_of_lookup_2 in Hr0. }
  induction n as [|n IH]; intros k c Hst; [done|].
  change (seq k (S n)) with (k :: seq (S k) n). rewrite !for_each_cons.
  rewrite <- (Hstep k c Hst).
  pose proof (interlink_rpc_static lps k c) as Hst1.
  destruct (interlink_rpc lps k c) as [c1 [e|[]]]; [done|].
  apply IH. simpl in Hst1. by rewrite Hst1.
Qed.

(** C7. A descriptor that matches no RPC of [self.rpcs] has no effect on the
    interlinking loop: with or without it the loop ends in the same store
    with the same outcome, so no link comes from it and it causes no error.
    This happens: with "A" and "B" deployed and a blueprint whose only node
    "A" connects its operation "Solve" (input "Empty") to "B".Consume, the
    descriptor is collected, it matches no RPC, and the resolution returns
    the single RPC, with empty [incoming] and [outgoing], and no link. *)
Theorem unmatched_descriptor_ignored :
  (∀ c lps1 lp lps2,
     (∀ r, r ∈ rpcs c →
           ¬ (output_node lp = node r ∧ output_operation lp = operation r)) →
     interlink (lps1 ++ lp :: lps2) c = interlink (lps1 ++ lps2) c) ∧
  ((extract_rpcs (blueprint_A_to "B")
      (collect_node_infos (blueprint_A_to "B") dockerinfo_AB Core_class).1).2 =
     inr [descriptor_Solve_to_B] ∧
   incoming_links [descriptor_Solve_to_B] rpc_Solve = [] ∧
   (test_orchestrator (blueprint_A_to "B") dockerinfo_AB Core_class).2 =
     inr (registry_of [entry_A; entry_B], [rpc_Solve], [])).
Proof.
  split; [|by vm_compute].
  intros c lps1 lp lps2 Hnone. unfold interlink, bind, get.
  apply interlink_loop_ext with (rs0 := rpcs c); [|done].
  intros r Hr. unfold incoming_links.
  rewrite !filter_app, filter_cons_False; [done|]. by apply Hnone.
Qed.

Lemma unmatched_descriptor_ignored_witness :
  interlink ([] ++ descriptor_Solve_to_B :: [])
    (extract_rpcs (blueprint_A_to "B")
       (collect_node_infos (blueprint_A_to "B") dockerinfo_AB Core_class).1).1 =
  interlink ([] ++ [])
    (extract_rpcs (blueprint_A_to "B")
       (collect_node_infos (blueprint_A_to "B") dockerinfo_AB Core_class).1).1.
Proof.
  apply (proj1 unmatched_descriptor_ignored _ [] descriptor_Solve_to_B []).
  intros r Hr. vm_compute in Hr. apply list_elem_of_singleton in Hr as ->.
  vm_compute. intros [Hnode _]. discriminate Hnode.
Defined.

(** ** Runs of [test_orchestrator] *)

(** C8. Scenario A: with the single container "A" deployed and the single
    operation "Solve" of node "A", input "Empty", output "Result", connected
    to nothing, the resolution returns the registry with "A", exactly one
    RPC, whose [incoming] and [outgoing] lists are empty, and no link. *)
Theorem scenario_A :
  (test_orchestrator blueprint_A dockerinfo_A Core_class).2 =
    inr (registry_of [entry_A], [rpc_Solve], []) ∧
  operation rpc_Solve = "Solve"%string ∧
  incoming rpc_Solve = [] ∧ outgoing rpc_Solve = [].
Proof. by vm_compute. Qed.

(** C3. The containers are retained from one run to the next.  A first run
    on the documents of scenario A succeeds; a second run on the same
    documents, with a new [Core()], finds "A" in [self.nodes] and raises the
    duplicate-container [ValueError]. *)
Theorem second_run_fails :
  (test_orchestrator blueprint_A dockerinfo_A Core_class).2 =
    inr (registry_of [entry_A], [rpc_Solve], []) ∧
  (test_orchestrator blueprint_A dockerinfo_A
     (test_orchestrator blueprint_A dockerinfo_A Core_class).1).2 =
    inl (ValueError_duplicate_container "A").
Proof. by vm_compute. Qed.


Lemma interlink_rpc_nodes lps i c : nodes (interlink_rpc lps i c).1 = nodes c.
Proof.
  destruct (rpcs c !! i) as [rpc|] eqn:Hi.
  - destruct (decide (cardinality_ok lps rpc)) as [Hok|Hbad].
    + destruct (decide (name (input rpc) = "Empty"%string)) as [He|Hne].
      * by rewrite (interlink_rpc_empty _ _ _ _ Hi Hok He).
      * by destruct (interlink_rpc_link _ _ _ _ Hi Hok Hne) as (lp & _ & ->).
    + by rewrite (interlink_rpc_fail _ _ _ _ Hi Hbad).
  - unfold interlink_rpc, bind, get. by rewrite Hi.
Qed.


Lemma interlinked_refl c : interlinked c c.
Proof. by split_and!. Qed.

Lemma interlinked_trans c1 c2 c3 :
  interlinked c1 c2 → interlinked c2 c3 → interlinked c1 c3.
Proof.
  intros (Hn1 & Hs1 & Hl1) (Hn2 & Hs2 & Hl2).
  split_and!; [congruence..|by etrans].
Qed.

Lemma add_link_interlinked lp i c : interlinked c (add_link lp i c).
Proof.
  split_and!; [done|apply add_link_static|]. simpl. by apply prefix_app_r.
Qed.

Lemma interlink_rpc_interlinked lps i c :
  interlinked c (interlink_rpc lps i c).1.
Proof.
  destruct (rpcs c !! i) as [rpc|] eqn:Hi.
  - destruct (decide (cardinality_ok lps rpc)) as [Hok|Hbad].
    + destruct (decide (name (input rpc) = "Empty"%string)) as [He|Hne].
      * rewrite (interlink_rpc_empty _ _ _ _ Hi Hok He).
        apply interlinked_refl.
      * destruct (interlink_rpc_link _ _ _ _ Hi Hok Hne) as (lp & _ & ->).
        apply add_link_interlinked.
    + rewrite (interlink_rpc_fail _ _ _ _ Hi Hbad). apply interlinked_refl.
  - unfold interlink_rpc, bind, get. rewrite Hi. apply interlinked_refl.
Qed.

Lemma for_each_interlinked lps (xs : list nat) c :
  interlinked c (for_each xs (interlink_rpc lps) c).1.
Proof.
  revert c. induction xs as [|x xs IH]; intros c; [apply interlinked_refl|].
  rewrite for_each_cons.
  pose proof (interlink_rpc_interlinked lps x c) as Hstep.
  destruct (interlink_rpc lps x c) as [c1 [e|[]]]; [done|].
  eapply interlinked_trans; [exact Hstep|apply IH].
Qed.

Lemma interlink_interlinked lps c : interlinked c (interlink lps c).1.
Proof. unfold interlink, bind, get. apply for_each_interlinked. Qed.



(** ** Positions of links *)

Lemma positions_app f r ls l j :
  positions f r (ls ++ [l]) j =
  positions f r ls j ++ (if decide (f l = r) then [j + length ls] else []).
Proof.
  revert j. induction ls as [|l0 ls IH]; intros j; simpl.
  - rewrite Nat.add_0_r. by destruct (decide (f l = r)).
  - rewrite IH. replace (S j + length ls) with (j + S (length ls)) by lia.
    by destruct (decide (f l0 = r)).
Qed.

Lemma elem_of_positions f r ls j x :
  x ∈ positions f r ls j ↔
  ∃ l, j ≤ x ∧ ls !! (x - j) = Some l ∧ f l = r.
Proof.
  revert j. induction ls as [|l0 ls IH]; intros j; simpl.
  - split; [by intros ?%elem_of_nil|by intros (l & _ & ? & _)].
  - assert (Htail : x ∈ positions f r ls (S j) ↔
              ∃ l, j < x ∧ (l0 :: ls) !! (x - j) = Some l ∧ f l = r).
    { rewrite IH. split.
      - intros (l & Hle & Hl & Hf). exists l. split_and!; [lia| |done].
        replace (x - j) with (S (x - S j)) by lia. done.
      - intros (l & Hlt & Hl & Hf). exists l. split_and!; [lia| |done].
        replace (x - j) with (S (x - S j)) in Hl by lia. done. }
    destruct (decide (f l0 = r)) as [Heq|Hne].
    + rewrite elem_of_cons, Htail. split.
      * intros [->|(l & Hlt & Hl & Hf)].
        -- exists l0. rewrite Nat.sub_diag. done.
        -- exists l. split_and!; [lia|done..].
      * intros (l & Hle & Hl & Hf). destruct (decide (x = j)) as [->|Hxj].
        -- by left.
        -- right. exists l. split_and!; [lia|done..].
    + rewrite Htail. split.
      * intros (l & Hlt & Hl & Hf). exists l. split_and!; [lia|done..].
      * intros (l & Hle & Hl & Hf). exists l. split_and!; [|done..].
        destruct (decide (x = j)) as [->|Hxj]; [|lia].
        rewrite Nat.sub_diag in Hl. simpl in Hl. congruence.
Qed.

Lemma positions_none f r ls j :
  (∀ l, l ∈ ls → f l ≠ r) → positions f r ls j = [].
Proof.
  intros Hnone. destruct (positions f r ls j) as [|x xs] eqn:Hpos; [done|].
  assert (x ∈ positions f r ls j) as (l & _ & Hl & Hf)%elem_of_positions
    by (rewrite Hpos; apply list_elem_of_here).
  exfalso. apply (Hnone l); [|done]. by apply list_elem_of_lookup_2 in Hl.
Qed.

(** ** Consistency of the store *)

Lemma store_consistent_empty c :
  rpcs c = [] → links c = [] → store_consistent c.
Proof.
  intros Hr Hl. split; rewrite ?Hr, ?Hl.
  - by intros l ?%elem_of_nil.
  - by intros l p ?%elem_of_nil.
  - intros i r Hi. done.
  - intros i r Hi. done.
Qed.

Lemma store_consistent_extended c c' :
  extended c c' → store_consistent c → store_consistent c'.
Proof.
  intros (Hn & Hl & new & Hr & Hnew) [Hrange Hmsg Hin Hout].
  assert (Hfresh : ∀ i r, rpcs c' !! i = Some r →
            rpcs c !! i = Some r ∨
            (length (rpcs c) ≤ i ∧ incoming r = [] ∧ outgoing r = [])).
  { intros i r Hi. rewrite Hr in Hi.
    apply lookup_app_Some in Hi as [Hi|[Hle Hi]]; [by left|right].
    split; [done|]. rewrite Forall_forall in Hnew. apply Hnew.
    by apply list_elem_of_lookup_2 in Hi. }
  split; rewrite ?Hl.
  - intros l Hlin. destruct (Hrange l Hlin). rewrite Hr, length_app. lia.
  - intros l p Hlin Hp. apply (Hmsg l p Hlin).
    destruct (Hfresh _ _ Hp) as [Hp0|[Hle _]]; [done|].
    destruct (Hrange l Hlin). lia.
  - intros i r Hi. destruct (Hfresh _ _ Hi) as [Hi0|(Hle & -> & _)]; [by apply Hin|].
    symmetry. apply positions_none. intros l Hlin.
    destruct (Hrange l Hlin). lia.
  - intros i r Hi. destruct (Hfresh _ _ Hi) as [Hi0|(Hle & _ & ->)]; [by apply Hout|].
    symmetry. apply positions_none. intros l Hlin.
    destruct (Hrange l Hlin). lia.
Qed.

Lemma add_link_lookup lp k c i r :
  rpcs (add_link lp k c) !! i = Some r →
  ∃ r0, rpcs c !! i = Some r0 ∧ rpc_static r = rpc_static r0 ∧
        incoming r =
          incoming r0 ++ (if decide (k = i) then [length (links c)] else []) ∧
        outgoing r =
          outgoing r0 ++
          (if decide (lp_input lp = i) then [length (links c)] else []).
Proof.
  unfold add_link. simpl.
  destruct (decide (k = i)) as [->|Hki];
    destruct (decide (lp_input lp = i)) as [Hpi|Hpi];
    rewrite ?Hpi;
    rewrite ?list_lookup_alter_eq, ?list_lookup_alter_ne by done;
    rewrite ?list_lookup_alter_eq, ?list_lookup_alter_ne by done;
    (destruct (rpcs c !! i) as [r0|]; [|done]);
    simpl; intros [= <-]; exists r0; simpl;
    by rewrite ?(right_id_L [] (++)).
Qed.

Lemma store_consistent_add_link lp k c :
  k < length (rpcs c) → lp_wf (rpcs c) lp →
  store_consistent c → store_consistent (add_link lp k c).
Proof.
  intros Hk (p1 & Hp1 & Hmsg1) [Hrange Hmsg Hin Hout].
  assert (Hlen : length (rpcs (add_link lp k c)) = length (rpcs c)).
  { apply static_length, add_link_static. }
  split.
  - intros l. rewrite Hlen. simpl.
    intros [Hl| ->%list_elem_of_singleton]%elem_of_app; [by apply Hrange|].
    simpl. split; [by apply lookup_lt_Some in Hp1|done].
  - intros l p Hl Hp.
    apply add_link_lookup in Hp as (p0 & Hp0 & Hs & _).
    assert (name (output p) = name (output p0)) as ->.
    { unfold rpc_static in Hs. congruence. }
    simpl in Hl.
    apply elem_of_app in Hl as [Hl| ->%list_elem_of_singleton];
      [by apply Hmsg|].
    simpl in *. congruence.
  - intros i r Hi. apply add_link_lookup in Hi as (r0 & Hi0 & _ & -> & _).
    simpl. rewrite positions_app, (Hin i r0 Hi0). done.
  - intros i r Hi. apply add_link_lookup in Hi as (r0 & Hi0 & _ & _ & ->).
    simpl. rewrite positions_app, (Hout i r0 Hi0). done.
Qed.

(** The interlinking loop keeps the store consistent, together with any
    invariant [I] that its turns keep on a consistent store. *)
Lemma interlink_consistent lps (I : nat → Core → Prop) c :
  store_consistent c → Forall (lp_wf (rpcs c)) lps →
  (∀ k c1 rpc, I k c1 → store_consistent c1 →
     rpc_static <$> rpcs c1 = rpc_static <$> rpcs c →
     rpcs c !! k = Some rpc → cardinality_ok lps rpc →
     name (input rpc) = "Empty"%string → I (S k) c1) →
  (∀ k c1 rpc lp, I k c1 → store_consistent c1 →
     rpc_static <$> rpcs c1 = rpc_static <$> rpcs c →
     rpcs c !! k = Some rpc → incoming_links lps rpc = [lp] →
     name (input rpc) ≠ "Empty"%string → I (S k) (add_link lp k c1)) →
  I 0 c →
  ∀ c', interlink lps c = (c', inr tt) →
    I (length (rpcs c)) c' ∧ store_consistent c' ∧
    rpc_static <$> rpcs c' = rpc_static <$> rpcs c.
Proof.
  intros Hsc Hwf Hempty Hlink H0 c' Hrun.
  pose proof (interlink_inv lps (λ k c1, I k c1 ∧ store_consistent c1) c) as H.
  rewrite Hrun in H. destruct H as ([HI Hsc'] & Hst & _); [| |done|done].
  - intros k c1 rpc [HI1 Hsc1] Hst Hk Hok He. split; [|done].
    by apply (Hempty k c1 rpc).
  - intros k c1 rpc lp [HI1 Hsc1] Hst Hk Hlp Hne. split.
    + by apply (Hlink k c1 rpc lp).
    + apply store_consistent_add_link; [| |done].
      * rewrite (static_length _ _ Hst). by apply lookup_lt_Some in Hk.
      * apply (lp_wf_static (rpcs c)); [done|].
        rewrite Forall_forall in Hwf. apply Hwf.
        assert (lp ∈ incoming_links lps rpc) as Hin
          by (rewrite Hlp; apply list_elem_of_here).
        unfold incoming_links in Hin.
        by apply list_elem_of_filter in Hin as [_ Hin].
Qed.

Lemma collect_rpc_and_link_infos_consistent bpjson c c' res :
  store_consistent c →
  collect_rpc_and_link_infos bpjson c = (c', inr res) →
  store_consistent c' ∧ res = (rpcs c', links c').
Proof.
  intros Hsc. rewrite collect_rpc_and_link_infos_unfold.
  pose proof (extract_rpcs_spec bpjson c) as Hex.
  destruct (extract_rpcs bpjson c) as [c1 [e|lps]]; [done|].
  destruct Hex as (_ & Hext & Hwf).
  destruct (interlink lps c1) as [c2 [e|[]]] eqn:Hrun; [done|].
  intros [= <- <-]. split; [|done].
  destruct (interlink_consistent lps (λ _ _, True) c1) with (c' := c2)
    as (_ & Hsc2 & _); try done.
  - by apply (store_consistent_extended c).
  - by apply Hwf.
Qed.

(** C2. After a successful [collect_rpc_and_link_infos] on a consistent
    store (the empty store of a first run is one), every link of the
    returned list has its two ends among the returned RPCs, carries the name
    of the output message of its producer, is in the [outgoing] list of its
    producer and in the [incoming] list of its consumer, and is in no other
    [outgoing] or [incoming] list. *)
Theorem link_consistency bpjson c c' rs ls :
  store_consistent c →
  collect_rpc_and_link_infos bpjson c = (c', inr (rs, ls)) →
  ∀ j l, ls !! j = Some l →
    ∃ p q, rs !! link_input l = Some p ∧ rs !! link_output l = Some q ∧
           message_name l = name (output p) ∧
           j ∈ outgoing p ∧ j ∈ incoming q ∧
           ∀ i r, rs !! i = Some r →
                  (j ∈ outgoing r → i = link_input l) ∧
                  (j ∈ incoming r → i = link_output l).
Proof.
  intros Hsc Hrun j l Hj.
  destruct (collect_rpc_and_link_infos_consistent _ _ _ _ Hsc Hrun)
    as [[Hrange Hmsg Hin Hout] [= -> ->]].
  assert (Hl : l ∈ links c') by (by apply list_elem_of_lookup_2 in Hj).
  destruct (Hrange l Hl) as [Hi Ho].
  destruct (lookup_lt_is_Some_2 _ _ Hi) as [p Hp].
  destruct (lookup_lt_is_Some_2 _ _ Ho) as [q Hq].
  exists p, q. split_and!; [done|done|by apply Hmsg| | |].
  - rewrite (Hout _ _ Hp). apply elem_of_positions. exists l.
    rewrite Nat.sub_0_r. split_and!; [lia|done..].
  - rewrite (Hin _ _ Hq). apply elem_of_positions. exists l.
    rewrite Nat.sub_0_r. split_and!; [lia|done..].
  - intros i r Hr. split.
    + rewrite (Hout _ _ Hr). intros (l' & _ & Hl' & <-)%elem_of_positions.
      rewrite Nat.sub_0_r in Hl'. congruence.
    + rewrite (Hin _ _ Hr). intros (l' & _ & Hl' & <-)%elem_of_positions.
      rewrite Nat.sub_0_r in Hl'. congruence.
Qed.

(** Scenario B: the link from "A".Produce to "B".Consume. *)
Lemma link_consistency_witness :
  ∃ p q,
    rpcs (test_orchestrator (blueprint_AB "Data") dockerinfo_AB Core_class).1
      !! 0 = Some p ∧
    rpcs (test_orchestrator (blueprint_AB "Data") dockerinfo_AB Core_class).1
      !! 1 = Some q ∧
    "Data"%string = name (output p) ∧
    0 ∈ outgoing p ∧ 0 ∈ incoming q ∧
    ∀ i r,
      rpcs (test_orchestrator (blueprint_AB "Data") dockerinfo_AB Core_class).1
        !! i = Some r →
      (0 ∈ outgoing r → i = 0) ∧ (0 ∈ incoming r → i = 1).
Proof.
  apply (link_consistency (blueprint_AB "Data")
           (collect_node_infos (blueprint_AB "Data") dockerinfo_AB Core_class).1
           (test_orchestrator (blueprint_AB "Data") dockerinfo_AB Core_class).1
           (rpcs (test_orchestrator (blueprint_AB "Data") dockerinfo_AB
                    Core_class).1)
           (links (test_orchestrator (blueprint_AB "Data") dockerinfo_AB
                     Core_class).1))
    with (j := 0)
         (l := {| link_input := 0; link_output := 1; message_name := "Data" |}).
  - apply store_consistent_empty; vm_compute; reflexivity.
  - vm_compute. reflexivity.
  - vm_compute. reflexivity.
Defined.

(** ** Counting RPCs by their creation-time fields *)

Lemma filter_length_static (P : RPCInfo → Prop) `{∀ r, Decision (P r)}
    (rs rs' : list RPCInfo) :
  (∀ r r', rpc_static r = rpc_static r' → P r ↔ P r') →
  rpc_static <$> rs = rpc_static <$> rs' →
  length (filter P rs) = length (filter P rs').
Proof.
  intros HP. revert rs'. induction rs as [|r rs IH]; intros [|r' rs'] Hst;
    try done.
  rewrite !fmap_cons in Hst.
  assert (Hs : rpc_static r = rpc_static r') by congruence.
  assert (Hst' : rpc_static <$> rs = rpc_static <$> rs') by congruence.
  rewrite !filter_cons. specialize (IH rs' Hst').
  assert (Hiff : P r ↔ P r') by (by apply HP).
  destruct (decide (P r)), (decide (P r')); simpl; try lia; tauto.
Qed.

(** X12. The second run fails on every pair of documents whose dockerinfo
    is not empty: the names a successful run has put into [self.nodes] are
    still there when the next run reads the same dockerinfo. *)
Lemma second_run_raises bpjson dijson c c1 res :
  test_orchestrator bpjson dijson c = (c1, inr res) →
  docker_info_list dijson ≠ [] →
  ∃ k, (test_orchestrator bpjson dijson c1).2 =
       inl (ValueError_duplicate_container k).
Proof.
  unfold test_orchestrator, bind at 1. rewrite collect_node_infos_unfold.
  pose proof (extract_dockerinfo_spec dijson c) as Hex.
  destruct (extract_dockerinfo dijson c) as [c2 [e|[]]]; [done|].
  destruct Hex as ([Hnd _] & Hnodes & _).
  pose proof (verify_blueprint_spec bpjson c2) as Hv.
  destruct (verify_blueprint bpjson c2) as [c3 [e|[]]]; [done|].
  destruct Hv as [-> _]. unfold bind at 1.
  rewrite collect_rpc_and_link_infos_unfold.
  pose proof (extract_rpcs_spec bpjson c2) as Hrpcs.
  destruct (extract_rpcs bpjson c2) as [c4 [e|lps]]; [done|].
  destruct Hrpcs as (_ & (Hn4 & _) & _).
  pose proof (interlink_interlinked lps c4) as Hint.
  destruct (interlink lps c4) as [c5 [e|[]]]; [done|].
  destruct Hint as (Hn5 & _). simpl in Hn5.
  unfold ret. intros [= <- _] Hne.
  unfold bind at 1. rewrite collect_node_infos_unfold.
  pose proof (extract_dockerinfo_spec dijson c5) as Hex.
  destruct (extract_dockerinfo dijson c5) as [c6 [e|[]]].
  - destruct Hex as (_ & [k ->] & _). by exists k.
  - exfalso. destruct Hex as ([_ Hnew] & _).
    destruct (docker_info_list dijson) as [|di dil] eqn:Hdil; [done|].
    specialize (Hnew di (list_elem_of_here _ _)).
    rewrite Hn5, Hn4, Hnodes in Hnew.
    apply lookup_union_None in Hnew as [Hnew _].
    rewrite (registry_of_lookup (di :: dil) di) in Hnew; [done|done|].
    apply list_elem_of_here.
Qed.

(** Scenario B: "A".Produce, output "Data", connected to "B".Consume, input
    "Data".  One link is created; it is in the [outgoing] list of Produce
    and in the [incoming] list of Consume. *)
Example scenario_B_links :
  (collect_rpc_and_link_infos (blueprint_AB "Data")
     (collect_node_infos (blueprint_AB "Data") dockerinfo_AB Core_class).1).2 =
  inr ([ {| node := node_of_entry entry_A; operation := "Produce";
            input := {| name := "Empty"; stream := false |};
            output := {| name := "Data"; stream := false |};
            incoming := []; outgoing := [0] |};
         {| node := node_of_entry entry_B; operation := "Consume";
            input := {| name := "Data"; stream := false |};
            output := {| name := "Out"; stream := false |};
            incoming := [0]; outgoing := [] |} ],
       [ {| link_input := 0; link_output := 1; message_name := "Data" |} ]).
Proof. by vm_compute. Qed.

(** As in scenario D, with "B" as the container that is not deployed: the
    blueprint has the nodes "A" and "B", the dockerinfo deploys "A" only. *)
Example scenario_D_missing :
  (collect_node_infos (blueprint_AB "Data") dockerinfo_A Core_class).2 =
  inl (ValueError_not_in_dockerinfo "B").
Proof. by vm_compute. Qed.

(** * Further properties of the node registry *)

Lemma registry_of_insert_union di dil (m : gmap string NodeInfo) :
  di_container_name di ∉ di_container_name <$> dil →
  registry_of dil ∪ <[di_container_name di := node_of_entry di]> m =
  registry_of (di :: dil) ∪ m.
Proof.
  intros Hnotin. unfold registry_of at 2. simpl.
  rewrite <- insert_union_l, <- insert_union_r; [done|].
  by apply registry_of_lookup_None.
Qed.

(** Where the dockerinfo loop stops and what it leaves: it has registered
    the entries [done] it went through, and the entry it raises at, if any,
    has a name that is a key of [self.nodes] by then. *)
Lemma extract_dockerinfo_state dijson c :
  match extract_dockerinfo dijson c with
  | (c', res) =>
      ∃ done rest,
        docker_info_list dijson = done ++ rest ∧ all_new done c ∧
        nodes c' = registry_of done ∪ nodes c ∧
        rpcs c' = rpcs c ∧ links c' = links c ∧
        match res with
        | inr _ => rest = []
        | inl e =>
            ∃ di rest', rest = di :: rest' ∧
              is_Some (nodes c' !! di_container_name di) ∧
              e = ValueError_duplicate_container (di_container_name di)
        end
  end.
Proof.
  unfold extract_dockerinfo. destruct dijson as [dil]; simpl.
  revert c. induction dil as [|di dil IH]; intros c.
  - exists [], []. simpl. unfold registry_of. simpl.
    rewrite (left_id_L ∅ (∪)). split_and!; try done.
    split; [constructor|]. by intros di ?%elem_of_nil.
  - rewrite for_each_cons. unfold bind at 1, get at 1. simpl.
    destruct (nodes c !! di_container_name di) as [old|] eqn:Hlook.
    + exists [], (di :: dil). simpl. unfold registry_of. simpl.
      rewrite (left_id_L ∅ (∪)). split_and!; try done.
      * split; [constructor|]. by intros d ?%elem_of_nil.
      * exists di, dil. rewrite Hlook. by split_and!.
    + unfold modify. fold (node_of_entry di).
      specialize (IH (nodes_setitem (di_container_name di) (node_of_entry di) c)).
      destruct (for_each dil _ _) as [c' res].
      destruct IH as (done & rest & Hsplit & [Hnd Hnew] & Hn & Hr & Hl & Hres).
      assert (Hnotin : di_container_name di ∉ di_container_name <$> done).
      { intros (di' & Heq & Hdi')%list_elem_of_fmap.
        specialize (Hnew di' Hdi'). rewrite <- Heq in Hnew. simpl in Hnew.
        by rewrite lookup_insert_eq in Hnew. }
      simpl in Hn. rewrite registry_of_insert_union in Hn by done.
      exists (di :: done), rest.
      split_and!; [by rewrite Hsplit| |done..].
      split; [simpl; by apply NoDup_cons|].
      intros d [->|Hd]%elem_of_cons; [done|].
      specialize (Hnew d Hd). simpl in Hnew.
      rewrite lookup_insert_ne in Hnew; [done|].
      intros Heq. apply Hnotin. rewrite Heq. by apply list_elem_of_fmap_2.
Qed.

Lemma all_new_disjoint dil c : all_new dil c → registry_of dil ##ₘ nodes c.
Proof.
  intros [_ Hnew]. apply map_disjoint_spec. intros k x y Hx Hy.
  destruct (decide (k ∈ di_container_name <$> dil)) as [Hin|Hnotin].
  - apply list_elem_of_fmap in Hin as (di & -> & Hdi).
    rewrite (Hnew di Hdi) in Hy. done.
  - rewrite registry_of_lookup_None in Hx; done.
Qed.

Lemma verify_blueprint_first bpjson c c' e :
  verify_blueprint bpjson c = (c', inl e) →
  ∃ done n rest,
    bp_nodes bpjson = done ++ n :: rest ∧
    (∀ n', n' ∈ done → is_Some (nodes c !! bp_container_name n')) ∧
    nodes c !! bp_container_name n = None ∧
    e = ValueError_not_in_dockerinfo (bp_container_name n).
Proof.
  unfold verify_blueprint. destruct bpjson as [ns]; simpl.
  induction ns as [|n ns IH]; [done|].
  rewrite for_each_cons. unfold bind at 1, get at 1. simpl.
  destruct (nodes c !! bp_container_name n) as [ni|] eqn:Hlook.
  - unfold ret at 1. intros Hrun.
    destruct (IH Hrun) as (done & n0 & rest & -> & Hdone & Hnone & ->).
    exists (n :: done), n0, rest. split_and!; [done| |done|done].
    intros n' [->|Hn']%elem_of_cons; [by rewrite Hlook|by apply Hdone].
  - unfold raise. intros [= <- <-]. exists [], n, ns. split_and!; try done.
    by intros n' ?%elem_of_nil.
Qed.

(** [collect_node_infos] leaves the store that its dockerinfo loop leaves. *)
Lemma collect_node_infos_store bpjson dijson c :
  (collect_node_infos bpjson dijson c).1 = (extract_dockerinfo dijson c).1.
Proof.
  rewrite collect_node_infos_unfold.
  destruct (extract_dockerinfo dijson c) as [c1 [e|[]]]; [done|].
  pose proof (verify_blueprint_spec bpjson c1) as Hv.
  destruct (verify_blueprint bpjson c1) as [c2 [e|[]]]; by destruct Hv as [-> _].
Qed.

(** X1. Whatever its outcome, [collect_node_infos] only adds to
    [self.nodes]: every key that was there still maps to the same node, a
    new key is a container name of the dockerinfo, and [self.rpcs] and
    [self.links] are as before. *)
Theorem registry_only_grows bpjson dijson c :
  nodes c ⊆ nodes (collect_node_infos bpjson dijson c).1 ∧
  (∀ k, is_Some (nodes (collect_node_infos bpjson dijson c).1 !! k) →
        is_Some (nodes c !! k) ∨
        k ∈ di_container_name <$> docker_info_list dijson) ∧
  rpcs (collect_node_infos bpjson dijson c).1 = rpcs c ∧
  links (collect_node_infos bpjson dijson c).1 = links c.
Proof.
  rewrite collect_node_infos_store.
  pose proof (extract_dockerinfo_state dijson c) as H.
  destruct (extract_dockerinfo dijson c) as [c' res]. simpl.
  destruct H as (done & rest & Hsplit & Hnew & Hn & Hr & Hl & _).
  split_and!; [| |done|done].
  - rewrite Hn. apply map_union_subseteq_r. by apply all_new_disjoint.
  - intros k. rewrite Hn. intros [x [Hx|[_ Hx]]%lookup_union_Some_raw].
    + right. rewrite Hsplit, fmap_app. apply elem_of_app. left.
      destruct (decide (k ∈ di_container_name <$> done)) as [Hin|Hnotin];
        [done|].
      rewrite registry_of_lookup_None in Hx; done.
    + left. by exists x.
Qed.

(** X2. When [collect_node_infos] raises the duplicate-container
    [ValueError] for the name [k], it does so at the first entry of the
    dockerinfo whose name is already a key: [k] is the name of an earlier
    entry or was a key before the call.  The entries before that one have
    been put into [self.nodes] and stay there. *)
Theorem duplicate_reports_first bpjson dijson c c' k :
  collect_node_infos bpjson dijson c =
    (c', inl (ValueError_duplicate_container k)) →
  ∃ done di rest,
    docker_info_list dijson = done ++ di :: rest ∧
    di_container_name di = k ∧
    all_new done c ∧
    (k ∈ di_container_name <$> done ∨ is_Some (nodes c !! k)) ∧
    nodes c' = registry_of done ∪ nodes c.
Proof.
  rewrite collect_node_infos_unfold.
  pose proof (extract_dockerinfo_state dijson c) as H.
  destruct (extract_dockerinfo dijson c) as [c1 [e|[]]].
  - intros [= <- ->].
    destruct H as (done & rest & Hsplit & Hnew & Hn & _ & _ & Hres).
    destruct Hres as (di & rest' & -> & [x Hx] & [= ->]).
    exists done, di, rest'. split_and!; [done..| |done].
    rewrite Hn in Hx. apply lookup_union_Some_raw in Hx as [Hx|[_ Hx]].
    + left.
      destruct (decide (di_container_name di ∈ di_container_name <$> done))
        as [Hin|Hnotin]; [done|].
      rewrite registry_of_lookup_None in Hx; done.
    + right. by exists x.
  - pose proof (verify_blueprint_spec bpjson c1) as Hv.
    destruct (verify_blueprint bpjson c1) as [c2 [e|[]]]; [|done].
    destruct Hv as (_ & n & _ & _ & ->). done.
Qed.

Lemma duplicate_reports_first_witness :
  ∃ done di rest,
    docker_info_list dockerinfo_AA = done ++ di :: rest ∧
    di_container_name di = "A"%string ∧
    all_new done Core_class ∧
    ("A"%string ∈ di_container_name <$> done ∨
     is_Some (nodes Core_class !! "A"%string)) ∧
    nodes (collect_node_infos blueprint_A dockerinfo_AA Core_class).1 =
      registry_of done ∪ nodes Core_class.
Proof.
  apply (duplicate_reports_first blueprint_A dockerinfo_AA Core_class
           (collect_node_infos blueprint_A dockerinfo_AA Core_class).1 "A").
  vm_compute. reflexivity.
Defined.

(** X3. When [collect_node_infos] raises the not-present-in-dockerinfo
    [ValueError] for the name [k], every entry of the dockerinfo has been
    registered and stays registered, and [k] is the name of the first node
    of the blueprint, in document order, that is not a key of
    [self.nodes]. *)
Theorem missing_reports_first bpjson dijson c c' k :
  collect_node_infos bpjson dijson c =
    (c', inl (ValueError_not_in_dockerinfo k)) →
  all_new (docker_info_list dijson) c ∧
  nodes c' = registry_of (docker_info_list dijson) ∪ nodes c ∧
  ∃ done n rest,
    bp_nodes bpjson = done ++ n :: rest ∧
    bp_container_name n = k ∧
    (∀ n', n' ∈ done → is_Some (nodes c' !! bp_container_name n')) ∧
    nodes c' !! k = None.
Proof.
  rewrite collect_node_infos_unfold.
  pose proof (extract_dockerinfo_spec dijson c) as H.
  destruct (extract_dockerinfo dijson c) as [c1 [e|[]]].
  - destruct H as (_ & [k' ->] & _). done.
  - destruct H as (Hnew & Hn & _).
    pose proof (verify_blueprint_spec bpjson c1) as Hv.
    destruct (verify_blueprint bpjson c1) as [c2 [e|[]]] eqn:Hrun; [|done].
    destruct Hv as (-> & _). intros [= <- ->].
    destruct (verify_blueprint_first _ _ _ _ Hrun)
      as (done & n & rest & Hsplit & Hdone & Hnone & [= ->]).
    split_and!; [done..|]. exists done, n, rest. done.
Qed.

Lemma missing_reports_first_witness :
  all_new (docker_info_list dockerinfo_A) Core_class ∧
  nodes (collect_node_infos (blueprint_AB "Data") dockerinfo_A Core_class).1 =
    registry_of (docker_info_list dockerinfo_A) ∪ nodes Core_class ∧
  ∃ done n rest,
    bp_nodes (blueprint_AB "Data") = done ++ n :: rest ∧
    bp_container_name n = "B"%string ∧
    (∀ n', n' ∈ done →
       is_Some (nodes (collect_node_infos (blueprint_AB "Data") dockerinfo_A
                         Core_class).1 !! bp_container_name n')) ∧
    nodes (collect_node_infos (blueprint_AB "Data") dockerinfo_A Core_class).1
      !! "B"%string = None.
Proof.
  apply (missing_reports_first (blueprint_AB "Data") dockerinfo_A Core_class
           (collect_node_infos (blueprint_AB "Data") dockerinfo_A Core_class).1
           "B").
  vm_compute. reflexivity.
Defined.

(** * Further properties of the operation extractor *)

Lemma first_missing_nil_l m k keys :
  m !! k = None → first_missing m (k :: keys) k.
Proof. intros Hk. exists [], keys. split_and!; [done| |done]. by intros k' ?%elem_of_nil. Qed.

Lemma first_missing_app_l m keys1 keys2 k :
  first_missing m keys1 k → first_missing m (keys1 ++ keys2) k.
Proof.
  intros (done & rest & -> & Hdone & Hk). exists done, (rest ++ keys2).
  split_and!; [|done..]. by rewrite <- (assoc_L (++)).
Qed.

Lemma first_missing_app_r m keys1 keys2 k :
  (∀ k', k' ∈ keys1 → is_Some (m !! k')) →
  first_missing m keys2 k → first_missing m (keys1 ++ keys2) k.
Proof.
  intros H1 (done & rest & -> & Hdone & Hk). exists (keys1 ++ done), rest.
  split_and!; [by rewrite <- (assoc_L (++))| |done].
  intros k' [?|?]%elem_of_app; auto.
Qed.

Lemma first_missing_not_all m keys k :
  first_missing m keys k → ¬ ∀ k', k' ∈ keys → is_Some (m !! k').
Proof.
  intros (done & rest & -> & _ & Hk) Hall.
  destruct (Hall k) as [x Hx]; [|congruence].
  apply elem_of_app. right. apply list_elem_of_here.
Qed.

(** The loop over [sig_conn['connected_to']], exactly. *)
Lemma connected_to_loop_exact rpc_id msg (cons : list Connection) lps c :
  match for_fold cons (λ link_partial con,
          target <- nodes_getitem (con_container_name con) ;;
          ret (link_partial ++
                 [ {| lp_input := rpc_id;
                      lp_message_name := msg;
                      output_node := target;
                      output_operation := con_operation_name con |} ]))
        lps c with
  | (c', inr lps') =>
      c' = c ∧
      (∀ k, k ∈ con_container_name <$> cons → is_Some (nodes c !! k)) ∧
      lps' = lps ++
             omap (λ con, (λ target,
                             {| lp_input := rpc_id;
                                lp_message_name := msg;
                                output_node := target;
                                output_operation := con_operation_name con |})
                          <$> nodes c !! con_container_name con) cons
  | (c', inl e) =>
      c' = c ∧
      ∃ k, first_missing (nodes c) (con_container_name <$> cons) k ∧
           e = KeyError k
  end.
Proof.
  revert lps. induction cons as [|con cons IH]; intros lps.
  - simpl. unfold ret. split_and!; [done| |by rewrite (right_id_L [] (++))].
    intros k Hk. by apply elem_of_nil in Hk.
  - rewrite for_fold_cons. unfold bind at 1, nodes_getitem, bind, get.
    rewrite fmap_cons. simpl.
    destruct (nodes c !! con_container_name con) as [target|] eqn:Hlook.
    + unfold ret at 1 2. match goal with |- context [for_fold cons _ ?l c] =>
        specialize (IH l) end.
      destruct (for_fold cons _ _ c) as [c' [e|lps']].
      * destruct IH as (-> & k & Hk & ->). split; [done|].
        exists k. split; [|done].
        apply (first_missing_app_r _ [con_container_name con]); [|done].
        intros k' ->%list_elem_of_singleton. by rewrite Hlook.
      * destruct IH as (-> & Hall & ->). split_and!; [done| |].
        -- intros k [->|Hk]%elem_of_cons; [by rewrite Hlook|by apply Hall].
        -- simpl. by rewrite <- (assoc_L (++)).
    + unfold raise. split; [done|]. exists (con_container_name con).
      split; [|done]. by apply first_missing_nil_l.
Qed.

(** One turn of the loop over the operation signatures, exactly. *)
Lemma extract_sig_conn_exact bp_node lps sig_conn c :
  match extract_sig_conn bp_node lps sig_conn c with
  | (c', inr lps') =>
      (∀ k, k ∈ sig_conn_keys bp_node sig_conn → is_Some (nodes c !! k)) ∧
      ∃ ni, nodes c !! bp_container_name bp_node = Some ni ∧
            c' = rpcs_append
                   (rpc_of_signature ni (operation_signature sig_conn)) c ∧
            lps' = lps ++ sig_descriptors (nodes c) (length (rpcs c)) sig_conn
  | (c', inl e) =>
      c' = c ∧
      ∃ k, first_missing (nodes c) (sig_conn_keys bp_node sig_conn) k ∧
           e = KeyError k
  end.
Proof.
  unfold extract_sig_conn, sig_conn_keys.
  unfold bind at 1, nodes_getitem at 1, bind at 1, get at 1.
  destruct (nodes c !! bp_container_name bp_node) as [ni|] eqn:Hnode.
  - unfold ret at 1, bind at 1, get at 1, bind at 1.
    pose proof (connected_to_loop_exact (length (rpcs c))
                  (output_message_name (operation_signature sig_conn))
                  (connected_to sig_conn) lps c) as Hloop.
    destruct (for_fold (connected_to sig_conn) _ lps c) as [c' [e|lps']].
    + destruct Hloop as (-> & k & Hk & ->). split; [done|].
      exists k. split; [|done].
      apply (first_missing_app_r _ [bp_container_name bp_node]); [|done].
      intros k' ->%list_elem_of_singleton. by rewrite Hnode.
    + destruct Hloop as (-> & Hall & ->).
      unfold bind, modify, ret. split.
      * intros k [->|Hk]%elem_of_cons; [by rewrite Hnode|by apply Hall].
      * exists ni. done.
  - unfold raise. split; [done|]. exists (bp_container_name bp_node).
    split; [|done]. by apply first_missing_nil_l.
Qed.

Lemma for_fold_app {A S} (xs ys : list A) (body : S → A → M S) s c :
  for_fold (xs ++ ys) body s c =
  match for_fold xs body s c with
  | (c', inl e) => (c', inl e)
  | (c', inr s') => for_fold ys body s' c'
  end.
Proof.
  revert s c. induction xs as [|x xs IH]; intros s c; [done|].
  rewrite <- app_comm_cons, !for_fold_cons.
  destruct (body s x c) as [c1 [e|s1]]; [done|]. apply IH.
Qed.

(** The two nested loops of the extraction are one loop over the
    signatures of the blueprint. *)
Lemma extract_rpcs_flat bpjson c :
  extract_rpcs bpjson c =
  for_fold (blueprint_signatures bpjson)
    (λ link_partial p, extract_sig_conn p.1 link_partial p.2) [] c.
Proof.
  unfold extract_rpcs, blueprint_signatures. generalize (@nil LinkPartial).
  revert c. induction (bp_nodes bpjson) as [|n ns IH]; intros c lps; [done|].
  rewrite for_fold_cons.
  change ((n :: ns) ≫= _) with
    ((operation_signature_list n ≫= λ sc, [(n, sc)]) ++
     (ns ≫= λ n', operation_signature_list n' ≫= λ sc, [(n', sc)])).
  rewrite for_fold_app.
  assert (Hinner : ∀ scs lps1 c1,
            for_fold scs (extract_sig_conn n) lps1 c1 =
            for_fold (scs ≫= λ sc, [(n, sc)])
              (λ link_partial p, extract_sig_conn p.1 link_partial p.2)
              lps1 c1).
  { induction scs as [|sc scs IHs]; intros lps1 c1; [done|].
    change ((sc :: scs) ≫= _) with ((n, sc) :: (scs ≫= λ sc, [(n, sc)])).
    rewrite !for_fold_cons. simpl.
    destruct (extract_sig_conn n lps1 sc c1) as [c2 [e|lps2]]; [done|].
    apply IHs. }
  rewrite <- Hinner.
  destruct (for_fold (operation_signature_list n) _ lps c) as [c1 [e|lps1]];
    [done|].
  apply IH.
Qed.

Lemma blueprint_keys_flat bpjson :
  blueprint_keys bpjson =
  blueprint_signatures bpjson ≫= λ p, sig_conn_keys p.1 p.2.
Proof.
  unfold blueprint_keys, blueprint_signatures.
  induction (bp_nodes bpjson) as [|n ns IH]; [done|].
  change ((n :: ns) ≫= ?f) with (f n ++ (ns ≫= f)).
  rewrite bind_app, <- IH. f_equal.
  induction (operation_signature_list n) as [|sc scs IHs]; [done|].
  change ((sc :: scs) ≫= ?f) with (f sc ++ (scs ≫= f)).
  rewrite bind_app, <- IHs. simpl. by rewrite (right_id_L [] (++)).
Qed.

Lemma extracted_rpcs_cons m p sigs ni :
  m !! bp_container_name p.1 = Some ni →
  extracted_rpcs m (p :: sigs) =
  rpc_of_signature ni (operation_signature p.2) :: extracted_rpcs m sigs.
Proof. intros H. unfold extracted_rpcs. simpl. by rewrite H. Qed.

(** The loop over the signatures, exactly. *)
Lemma extract_loop_exact (sigs : list (BlueprintNode * SigConn)) lps c :
  match for_fold sigs
          (λ link_partial p, extract_sig_conn p.1 link_partial p.2) lps c with
  | (c', inr lps') =>
      (∀ k, k ∈ sigs ≫= (λ p, sig_conn_keys p.1 p.2) →
            is_Some (nodes c !! k)) ∧
      nodes c' = nodes c ∧ links c' = links c ∧
      rpcs c' = rpcs c ++ extracted_rpcs (nodes c) sigs ∧
      length (extracted_rpcs (nodes c) sigs) = length sigs ∧
      lps' = lps ++ extracted_descriptors (nodes c) (length (rpcs c)) sigs
  | (c', inl e) =>
      ∃ k, first_missing (nodes c) (sigs ≫= λ p, sig_conn_keys p.1 p.2) k ∧
           e = KeyError k
  end.
Proof.
  revert lps c. induction sigs as [|p sigs IH]; intros lps c.
  - simpl. unfold ret. split_and!; try done.
    + by intros k ?%elem_of_nil.
    + by rewrite (right_id_L [] (++)).
    + by rewrite (right_id_L [] (++)).
  - rewrite for_fold_cons.
    change ((p :: sigs) ≫= ?f) with (f p ++ (sigs ≫= f)).
    pose proof (extract_sig_conn_exact p.1 lps p.2 c) as Hstep.
    destruct (extract_sig_conn p.1 lps p.2 c) as [c1 [e|lps1]].
    + destruct Hstep as (_ & k & Hk & ->). exists k.
      split; [|done]. by apply first_missing_app_l.
    + destruct Hstep as (Hkeys & ni & Hni & -> & ->).
      specialize (IH (lps ++ sig_descriptors (nodes c) (length (rpcs c)) p.2)
                     (rpcs_append (rpc_of_signature ni (operation_signature p.2)) c)).
      destruct (for_fold sigs _ _ _) as [c2 [e|lps2]]; simpl in IH.
      * destruct IH as (k & Hk & ->). exists k. split; [|done].
        by apply first_missing_app_r.
      * destruct IH as (Hkeys2 & Hn & Hl & Hr & Hlen & ->).
        rewrite (extracted_rpcs_cons _ _ _ ni Hni).
        split_and!; [|done|done| | |].
        -- intros k [?|?]%elem_of_app; auto.
        -- by rewrite Hr, <- (assoc_L (++)).
        -- simpl. by rewrite Hlen.
        -- rewrite length_app, Nat.add_1_r. simpl.
           by rewrite <- (assoc_L (++)).
Qed.

Lemma omap_length_all {A B} (f : A → option B) (l : list A) :
  (∀ x, x ∈ l → is_Some (f x)) → length (omap f l) = length l.
Proof.
  induction l as [|x l IH]; intros Hall; [done|].
  destruct (Hall x (list_elem_of_here _ _)) as [y Hy].
  simpl. rewrite Hy. simpl. f_equal. apply IH.
  intros x' Hx'. apply Hall. by apply list_elem_of_further.
Qed.

Lemma sig_descriptors_length m rpc_id sig_conn :
  (∀ k, k ∈ con_container_name <$> connected_to sig_conn → is_Some (m !! k)) →
  length (sig_descriptors m rpc_id sig_conn) = length (connected_to sig_conn).
Proof.
  intros Hall. unfold sig_descriptors. apply omap_length_all.
  intros con Hcon.
  destruct (Hall (con_container_name con)) as [t Ht];
    [by apply list_elem_of_fmap_2|].
  rewrite Ht. by eexists.
Qed.

Lemma extracted_descriptors_length m rpc_id sigs :
  (∀ k, k ∈ sigs ≫= (λ p, sig_conn_keys p.1 p.2) → is_Some (m !! k)) →
  length (extracted_descriptors m rpc_id sigs) =
  length (sigs ≫= λ p, connected_to p.2).
Proof.
  revert rpc_id. induction sigs as [|p sigs IH]; intros rpc_id Hall; [done|].
  simpl. rewrite !length_app.
  change ((p :: sigs) ≫= ?f) with (f p ++ (sigs ≫= f)) in Hall.
  rewrite sig_descriptors_length, IH; [done| |].
  - intros k Hk. apply Hall, elem_of_app. by right.
  - intros k Hk. apply Hall, elem_of_app. left. unfold sig_conn_keys.
    by apply list_elem_of_further.
Qed.

(** X4. When the extraction loops go through, they have appended to
    [self.rpcs] one RPC for each operation signature of the blueprint, in
    document order, built from the signature and the registered node, with
    empty [incoming] and [outgoing]; and the descriptors they hand to the
    interlinking loop are one for each [connected_to] entry, in document
    order, each with the RPC of its signature as input, the output message
    name of that signature, and the registered node of its target.
    [self.nodes] and [self.links] are as before. *)
Theorem extraction_is_comprehension bpjson c c' lps :
  extract_rpcs bpjson c = (c', inr lps) →
  nodes c' = nodes c ∧ links c' = links c ∧
  rpcs c' = rpcs c ++ extracted_rpcs (nodes c) (blueprint_signatures bpjson) ∧
  length (extracted_rpcs (nodes c) (blueprint_signatures bpjson)) =
    length (blueprint_signatures bpjson) ∧
  lps = extracted_descriptors (nodes c) (length (rpcs c))
          (blueprint_signatures bpjson) ∧
  length lps = length (blueprint_signatures bpjson ≫= λ p, connected_to p.2).
Proof.
  rewrite extract_rpcs_flat. intros Hrun.
  pose proof (extract_loop_exact (blueprint_signatures bpjson) [] c) as H.
  rewrite Hrun in H. destruct H as (Hkeys & Hn & Hl & Hr & Hlen & ->).
  split_and!; try done. simpl. by apply extracted_descriptors_length.
Qed.

Lemma extraction_is_comprehension_witness :
  nodes (extract_rpcs (blueprint_AB "Data")
           (collect_node_infos (blueprint_AB "Data") dockerinfo_AB
              Core_class).1).1 =
    nodes (collect_node_infos (blueprint_AB "Data") dockerinfo_AB Core_class).1 ∧
  links (extract_rpcs (blueprint_AB "Data")
           (collect_node_infos (blueprint_AB "Data") dockerinfo_AB
              Core_class).1).1 =
    links (collect_node_infos (blueprint_AB "Data") dockerinfo_AB Core_class).1 ∧
  rpcs (extract_rpcs (blueprint_AB "Data")
          (collect_node_infos (blueprint_AB "Data") dockerinfo_AB
             Core_class).1).1 =
    rpcs (collect_node_infos (blueprint_AB "Data") dockerinfo_AB Core_class).1 ++
    extracted_rpcs
      (nodes (collect_node_infos (blueprint_AB "Data") dockerinfo_AB
                Core_class).1)
      (blueprint_signatures (blueprint_AB "Data")) ∧
  length (extracted_rpcs
            (nodes (collect_node_infos (blueprint_AB "Data") dockerinfo_AB
                      Core_class).1)
            (blueprint_signatures (blueprint_AB "Data"))) =
    length (blueprint_signatures (blueprint_AB "Data")) ∧
  [ {| lp_input := 0; lp_message_name := "Data";
       output_node := node_of_entry entry_B;
       output_operation := "Consume" |} ] =
    extracted_descriptors
      (nodes (collect_node_infos (blueprint_AB "Data") dockerinfo_AB
                Core_class).1)
      (length (rpcs (collect_node_infos (blueprint_AB "Data") dockerinfo_AB
                       Core_class).1))
      (blueprint_signatures (blueprint_AB "Data")) ∧
  length [ {| lp_input := 0; lp_message_name := "Data";
              output_node := node_of_entry entry_B;
              output_operation := "Consume" |} ] =
    length (blueprint_signatures (blueprint_AB "Data") ≫= λ p, connected_to p.2).
Proof.
  apply (extraction_is_comprehension (blueprint_AB "Data")
           (collect_node_infos (blueprint_AB "Data") dockerinfo_AB Core_class).1).
  vm_compute. reflexivity.
Defined.

(** The exceptions of [collect_rpc_and_link_infos]. *)
Lemma rpc_and_link_outcome bpjson c :
  match (collect_rpc_and_link_infos bpjson c).2 with
  | inl (KeyError k) => first_missing (nodes c) (blueprint_keys bpjson) k
  | inl (RuntimeError_incoming_links observed _ _ expected _) =>
      observed ≠ expected ∧
      ∀ k, k ∈ blueprint_keys bpjson → is_Some (nodes c !! k)
  | inl _ => False
  | inr _ => ∀ k, k ∈ blueprint_keys bpjson → is_Some (nodes c !! k)
  end.
Proof.
  rewrite collect_rpc_and_link_infos_unfold, extract_rpcs_flat,
          blueprint_keys_flat.
  pose proof (extract_loop_exact (blueprint_signatures bpjson) [] c) as H.
  destruct (for_fold (blueprint_signatures bpjson) _ [] c) as [c1 [e|lps]].
  - simpl. by destruct H as (k & Hk & ->).
  - destruct H as (Hkeys & _).
    pose proof (interlink_inv lps (λ _ _, True) c1) as Hint.
    destruct (interlink lps c1) as [c2 [e|[]]]; simpl; [|done].
    destruct Hint as (_ & i & r & _ & Hbad & _ & -> & _); [done..|].
    unfold cardinality_error. done.
Qed.

Lemma first_missing_unique m keys k1 k2 :
  first_missing m keys k1 → first_missing m keys k2 → k1 = k2.
Proof.
  intros (done1 & rest1 & -> & Hdone1 & Hk1) (done2 & rest2 & Heq & Hdone2 & Hk2).
  revert done2 Heq Hdone2. induction done1 as [|x done1 IH];
    intros [|y done2] Heq Hdone2; simpl in Heq.
  - by injection Heq.
  - injection Heq as -> _. destruct (Hdone2 y (list_elem_of_here _ _)). congruence.
  - injection Heq as -> _. destruct (Hdone1 k2 (list_elem_of_here _ _)). congruence.
  - injection Heq as -> Heq. apply (IH (λ k' Hk', Hdone1 k' (list_elem_of_further _ _ _ Hk')) done2 Heq).
    intros k' Hk'. apply Hdone2. by apply list_elem_of_further.
Qed.

(** X5. The statement is about blueprints that carry every key the method
    reads, which is what the type [Blueprint] describes.  For these,
    [collect_rpc_and_link_infos] raises [KeyError] for the name [k] exactly
    when [k] is the first of the names it looks up in [self.nodes] (for
    every operation signature the name of its node, then the targets of its
    connections) that is not a key.  The [RuntimeError] of the interlinking
    loop is raised only after all these lookups have gone through, and with
    an observed count that differs from the expected one.  The guarded
    [incoming_links[0]] never raises an [IndexError]. *)
Theorem collect_rpc_and_link_infos_exceptions bpjson c :
  (∀ k, (collect_rpc_and_link_infos bpjson c).2 = inl (KeyError k) ↔
        first_missing (nodes c) (blueprint_keys bpjson) k) ∧
  (∀ observed r input_name expected matched,
     (collect_rpc_and_link_infos bpjson c).2 =
       inl (RuntimeError_incoming_links observed r input_name expected
              matched) →
     observed ≠ expected ∧
     ∀ k, k ∈ blueprint_keys bpjson → is_Some (nodes c !! k)) ∧
  (collect_rpc_and_link_infos bpjson c).2 ≠ inl IndexError.
Proof.
  pose proof (rpc_and_link_outcome bpjson c) as H.
  destruct (collect_rpc_and_link_infos bpjson c).2 as [e|res];
    [destruct e; try done|].
  - split_and!; [|done|done]. intros k. split.
    + by intros [= <-].
    + intros Hk. f_equal. f_equal. by apply (first_missing_unique _ _ _ _ H).
  - destruct H as [Hne Hkeys]. split_and!; [|by intros ? ? ? ? ? [= <- _ _ <- _]|done].
    intros k. split; [done|]. intros Hk.
    by apply first_missing_not_all in Hk.
  - split_and!; [|done|done]. intros k. split; [done|]. intros Hk.
    by apply first_missing_not_all in Hk.
Qed.

(** * Further properties of the link resolver *)

(** X6. Whatever its outcome, [collect_rpc_and_link_infos] leaves
    [self.nodes] as it is, keeps every link that [self.links] held, in
    place, and keeps the node, operation, input and output of every RPC
    that [self.rpcs] held, in place. *)
Theorem resolution_keeps_what_exists bpjson c :
  nodes (collect_rpc_and_link_infos bpjson c).1 = nodes c ∧
  links c `prefix_of` links (collect_rpc_and_link_infos bpjson c).1 ∧
  rpc_static <$> take (length (rpcs c))
                   (rpcs (collect_rpc_and_link_infos bpjson c).1) =
    rpc_static <$> rpcs c.
Proof.
  rewrite collect_rpc_and_link_infos_unfold.
  pose proof (extract_rpcs_spec bpjson c) as Hex.
  assert (Hboth : ∀ c1 c2, extended c c1 → interlinked c1 c2 →
            nodes c2 = nodes c ∧ links c `prefix_of` links c2 ∧
            rpc_static <$> take (length (rpcs c)) (rpcs c2) =
              rpc_static <$> rpcs c).
  { intros c1 c2 (Hn1 & Hl1 & new & Hr1 & _) (Hn2 & Hs2 & Hl2).
    split_and!; [congruence|by rewrite <- Hl1|].
    rewrite fmap_take, Hs2, Hr1, fmap_app.
    apply take_app_length'. by rewrite length_fmap. }
  destruct (extract_rpcs bpjson c) as [c1 [e|lps]].
  - destruct Hex as [Hext _]. apply (Hboth c1 c1 Hext), interlinked_refl.
  - destruct Hex as (_ & Hext & _).
    pose proof (interlink_interlinked lps c1) as Hint.
    destruct (interlink lps c1) as [c2 [e|[]]]; by apply (Hboth c1 c2).
Qed.

(** X7. After a successful [collect_rpc_and_link_infos] that started
    without links, the returned links are in the order of their consumers
    in [self.rpcs]: a link that comes later in the list has its output at a
    later position. *)
Theorem links_follow_rpcs bpjson c c' rs ls :
  links c = [] →
  collect_rpc_and_link_infos bpjson c = (c', inr (rs, ls)) →
  ∀ j1 j2 l1 l2, ls !! j1 = Some l1 → ls !! j2 = Some l2 → j1 < j2 →
                 link_output l1 < link_output l2.
Proof.
  intros Hl0. rewrite collect_rpc_and_link_infos_unfold.
  pose proof (extract_rpcs_spec bpjson c) as Hex.
  destruct (extract_rpcs bpjson c) as [c1 [e|lps]]; [done|].
  destruct Hex as (_ & (_ & Hl1 & _) & _).
  pose proof (interlink_inv lps
    (λ k c3, (∀ l, l ∈ links c3 → link_output l < k) ∧
             ∀ j1 j2 l1 l2, links c3 !! j1 = Some l1 →
               links c3 !! j2 = Some l2 → j1 < j2 →
               link_output l1 < link_output l2) c1) as H.
  destruct (interlink lps c1) as [c2 [e|[]]]; [done|].
  intros [= <- <- <-].
  destruct H as ((_ & Hsorted) & _); [| | |done].
  - intros k c3 rpc [Hlt Hs] _ _ _ _. split; [|done].
    intros l Hl. specialize (Hlt l Hl). lia.
  - intros k c3 rpc lp [Hlt Hs] _ _ _ _. simpl. split.
    + intros l [Hl| ->%list_elem_of_singleton]%elem_of_app.
      * specialize (Hlt l Hl). lia.
      * simpl. lia.
    + intros j1 j2 l1 l2 H1 H2 Hj.
      apply lookup_app_Some in H2 as [H2|[Hle H2]].
      * apply lookup_app_Some in H1 as [H1|[Hle1 H1]].
        -- by apply (Hs j1 j2).
        -- apply lookup_lt_Some in H2. lia.
      * apply list_lookup_singleton_Some in H2 as [Hj2 <-]. simpl.
        apply lookup_app_Some in H1 as [H1|[Hle1 H1]].
        -- apply Hlt. by apply list_elem_of_lookup_2 in H1.
        -- apply list_lookup_singleton_Some in H1 as [Hj1 _]. lia.
  - rewrite Hl1, Hl0. split.
    + by intros l ?%elem_of_nil.
    + intros j1 j2 l1 l2 H1. done.
Qed.

(** The two links of the chain. *)
Lemma links_follow_rpcs_witness :
  link_output {| link_input := 0; link_output := 1; message_name := "Data" |} <
  link_output {| link_input := 1; link_output := 2; message_name := "Out" |}.
Proof.
  apply (links_follow_rpcs blueprint_chain chain_registered chain_resolved
           (rpcs chain_resolved) (links chain_resolved)) with (j1 := 0) (j2 := 1).
  - vm_compute. reflexivity.
  - vm_compute. reflexivity.
  - vm_compute. reflexivity.
  - vm_compute. reflexivity.
  - lia.
Defined.

(** The links of a successful call and the descriptors of its extraction. *)
Lemma interlink_join bpjson c c' rs ls :
  links c = [] →
  collect_rpc_and_link_infos bpjson c = (c', inr (rs, ls)) →
  ∃ c1 lps, extract_rpcs bpjson c = (c1, inr lps) ∧
    rpc_static <$> rs = rpc_static <$> rpcs c1 ∧
    (∀ l, l ∈ ls →
       ∃ q lp, rs !! link_output l = Some q ∧
               incoming_links lps q = [lp] ∧
               link_input l = lp_input lp ∧
               message_name l = lp_message_name lp) ∧
    (∀ i q lp, rs !! i = Some q → lp ∈ lps →
       output_node lp = node q → output_operation lp = operation q →
       ∃ l, l ∈ ls ∧ link_output l = i ∧ link_input l = lp_input lp ∧
            message_name l = lp_message_name lp).
Proof.
  intros Hl0. rewrite collect_rpc_and_link_infos_unfold.
  pose proof (extract_rpcs_spec bpjson c) as Hex.
  destruct (extract_rpcs bpjson c) as [c1 [e|lps]]; [done|].
  destruct Hex as (_ & (_ & Hl1 & _) & _).
  pose proof (interlink_inv lps
    (λ k c3,
       (∀ l, l ∈ links c3 →
          ∃ q lp, rpcs c1 !! link_output l = Some q ∧
                  incoming_links lps q = [lp] ∧
                  link_input l = lp_input lp ∧
                  message_name l = lp_message_name lp) ∧
       (∀ i q lp, i < k → rpcs c1 !! i = Some q →
          lp ∈ incoming_links lps q →
          ∃ l, l ∈ links c3 ∧ link_output l = i ∧
               link_input l = lp_input lp ∧
               message_name l = lp_message_name lp)) c1) as H.
  destruct (interlink lps c1) as [c2 [e|[]]]; [done|].
  intros [= <- <- <-]. exists c1, lps. split; [done|].
  destruct H as ((Ha & Hb) & Hst & _); [| | |split; [done|]].
  - intros k c3 rpc [Ha Hb] _ Hk Hok Hempty. split; [done|].
    intros i q lp Hi Hq Hlp. destruct (decide (i = k)) as [->|Hne];
      [|apply (Hb i q lp); [lia|done..]].
    rewrite Hk in Hq. injection Hq as <-.
    unfold cardinality_ok, expected_incoming_links in Hok.
    rewrite decide_True in Hok by done.
    destruct (incoming_links lps rpc); [|done]. by apply elem_of_nil in Hlp.
  - intros k c3 rpc lp [Ha Hb] _ Hk Hlp Hne. simpl. split.
    + intros l [Hl| ->%list_elem_of_singleton]%elem_of_app; [by apply Ha|].
      simpl. exists rpc, lp. done.
    + intros i q lp' Hi Hq Hlp'. destruct (decide (i = k)) as [->|Hik].
      * rewrite Hk in Hq. injection Hq as <-.
        rewrite Hlp in Hlp'. apply list_elem_of_singleton in Hlp' as ->.
        eexists. split; [apply elem_of_app; right; apply list_elem_of_here|].
        done.
      * destruct (Hb i q lp') as (l & Hl & Hrest); [lia|done..|].
        exists l. split; [apply elem_of_app; by left|done].
  - rewrite Hl1, Hl0. split; [by intros l ?%elem_of_nil|]. intros; lia.
  - split.
    + intros l Hl. destruct (Ha l Hl) as (q & lp & Hq & Hlp & Hin & Hmsg).
      assert (rpc_static <$> rpcs c1 = rpc_static <$> rpcs c2) as Hst'
        by done.
      destruct (static_lookup _ _ _ _ Hst' Hq) as (q' & Hq' & Hs).
      exists q', lp. split_and!; [done| |done|done].
      by rewrite <- (incoming_links_static lps q q' Hs).
    + intros i q' lp Hq' Hlp Hnode Hop.
      destruct (static_lookup _ _ _ _ Hst Hq') as (q & Hq & Hs).
      apply (Hb i q lp); [by apply lookup_lt_Some in Hq|done|].
      rewrite <- (incoming_links_static lps q' q Hs).
      unfold incoming_links. apply list_elem_of_filter. done.
Qed.

(** X8. After a successful [collect_rpc_and_link_infos] that started
    without links, the returned links are the join of the returned RPCs
    with the descriptors of the extraction: every link comes from the one
    descriptor addressed to its output RPC, whose input RPC and message
    name it has; and for every RPC and every descriptor addressed to it
    there is a link from the descriptor's input RPC to that RPC. *)
Theorem links_join_descriptors bpjson c c' rs ls :
  links c = [] →
  collect_rpc_and_link_infos bpjson c = (c', inr (rs, ls)) →
  ∃ c1 lps, extract_rpcs bpjson c = (c1, inr lps) ∧
    (∀ l, l ∈ ls →
       ∃ q lp, rs !! link_output l = Some q ∧
               incoming_links lps q = [lp] ∧
               link_input l = lp_input lp ∧
               message_name l = lp_message_name lp) ∧
    (∀ i q lp, rs !! i = Some q → lp ∈ lps →
       output_node lp = node q → output_operation lp = operation q →
       ∃ l, l ∈ ls ∧ link_output l = i ∧ link_input l = lp_input lp ∧
            message_name l = lp_message_name lp).
Proof.
  intros Hl0 Hrun.
  destruct (interlink_join _ _ _ _ _ Hl0 Hrun) as (c1 & lps & Hex & _ & Ha & Hb).
  by exists c1, lps.
Qed.

Lemma links_join_descriptors_witness :
  ∃ c1 lps, extract_rpcs blueprint_chain chain_registered = (c1, inr lps) ∧
    (∀ l, l ∈ links chain_resolved →
       ∃ q lp, rpcs chain_resolved !! link_output l = Some q ∧
               incoming_links lps q = [lp] ∧
               link_input l = lp_input lp ∧
               message_name l = lp_message_name lp) ∧
    (∀ i q lp, rpcs chain_resolved !! i = Some q → lp ∈ lps →
       output_node lp = node q → output_operation lp = operation q →
       ∃ l, l ∈ links chain_resolved ∧ link_output l = i ∧
            link_input l = lp_input lp ∧
            message_name l = lp_message_name lp).
Proof.
  apply (links_join_descriptors blueprint_chain chain_registered chain_resolved
           (rpcs chain_resolved) (links chain_resolved)).
  - vm_compute. reflexivity.
  - vm_compute. reflexivity.
Defined.

Lemma positions_NoDup f r ls j : NoDup (positions f r ls j).
Proof.
  revert j. induction ls as [|l ls IH]; intros j; simpl; [constructor|].
  destruct (decide (f l = r)); [|apply IH].
  apply NoDup_cons. split; [|apply IH].
  intros (l' & Hle & _)%elem_of_positions. lia.
Qed.

(** X9. After a successful [collect_rpc_and_link_infos] on a consistent
    store, no [incoming] or [outgoing] list of a returned RPC holds a link
    twice, and every link such a list refers to is one of the returned
    links. *)
Theorem link_lists_duplicate_free bpjson c c' rs ls :
  store_consistent c →
  collect_rpc_and_link_infos bpjson c = (c', inr (rs, ls)) →
  ∀ r, r ∈ rs →
    NoDup (incoming r) ∧ NoDup (outgoing r) ∧
    ∀ j, j ∈ incoming r ++ outgoing r → is_Some (ls !! j).
Proof.
  intros Hsc Hrun r (i & Hi)%list_elem_of_lookup.
  destruct (collect_rpc_and_link_infos_consistent _ _ _ _ Hsc Hrun)
    as [[_ _ Hin Hout] [= -> ->]].
  rewrite (Hin i r Hi), (Hout i r Hi).
  split_and!; [apply positions_NoDup..|].
  intros j [Hj|Hj]%elem_of_app;
    apply elem_of_positions in Hj as (l & _ & Hl & _);
    rewrite Nat.sub_0_r in Hl; by exists l.
Qed.

(** "B".Consume in the resolved chain. *)
Lemma link_lists_duplicate_free_witness :
  NoDup [0] ∧ NoDup [1] ∧
  ∀ j, j ∈ [0] ++ [1] → is_Some (links chain_resolved !! j).
Proof.
  apply (link_lists_duplicate_free blueprint_chain chain_registered
           chain_resolved (rpcs chain_resolved) (links chain_resolved))
    with (r := {| node := node_of_entry entry_B; operation := "Consume";
                  input := {| name := "Data"; stream := false |};
                  output := {| name := "Out"; stream := false |};
                  incoming := [0]; outgoing := [1] |}).
  - apply store_consistent_empty; vm_compute; reflexivity.
  - vm_compute. reflexivity.
  - apply (list_elem_of_lookup_2 _ 1). vm_compute. reflexivity.
Defined.

(** X10. For a blueprint without operation signatures (no node, or only
    nodes that declare none) [collect_rpc_and_link_infos] looks up nothing
    and changes nothing.  It checks the RPCs that [self.rpcs] already holds
    against an empty list of descriptors: it returns [self.rpcs] and
    [self.links] when every one of them has the input message name "Empty",
    and otherwise raises the [RuntimeError] for the first that has not,
    with 0 observed and 1 expected. *)
Theorem no_signature_blueprint bpjson c :
  blueprint_signatures bpjson = [] →
  (collect_rpc_and_link_infos bpjson c).1 = c ∧
  match (collect_rpc_and_link_infos bpjson c).2 with
  | inr (rs, ls) =>
      rs = rpcs c ∧ ls = links c ∧
      ∀ r, r ∈ rpcs c → name (input r) = "Empty"%string
  | inl e =>
      ∃ i r, rpcs c !! i = Some r ∧ name (input r) ≠ "Empty"%string ∧
             (∀ j r', j < i → rpcs c !! j = Some r' →
                      name (input r') = "Empty"%string) ∧
             e = RuntimeError_incoming_links 0 i (name (input r)) 1 []
  end.
Proof.
  intros Hnone. rewrite collect_rpc_and_link_infos_unfold, extract_rpcs_flat.
  rewrite Hnone. simpl.
  assert (Hok : ∀ r, cardinality_ok [] r ↔ name (input r) = "Empty"%string).
  { intros r. unfold cardinality_ok, expected_incoming_links, incoming_links.
    simpl. by destruct (decide (name (input r) = "Empty"%string)). }
  pose proof (interlink_inv [] (λ _ c3, c3 = c) c) as H.
  destruct (interlink [] c) as [c2 [e|[]]]; simpl.
  - destruct H as (_ & i & r & Hi & Hbad & Hbefore & -> & ->); [done| |done|].
    + intros k c1 rpc lp _ _ _ Hlp. done.
    + split; [done|]. exists i, r. split_and!; [done| | |].
      * by rewrite <- Hok.
      * intros j r' Hj Hr'. apply Hok. by apply (Hbefore j).
      * unfold cardinality_error, expected_incoming_links, incoming_links.
        simpl. rewrite decide_False; [done|]. by rewrite <- Hok.
  - destruct H as (-> & _ & Hall); [done| |done|].
    + intros k c1 rpc lp _ _ _ Hlp. done.
    + split_and!; [done..|].
      intros r (i & Hi)%list_elem_of_lookup. apply Hok. by apply (Hall i).
Qed.

Lemma no_signature_blueprint_witness :
  (collect_rpc_and_link_infos blueprint_idle chain_resolved).1 =
    chain_resolved ∧
  match (collect_rpc_and_link_infos blueprint_idle chain_resolved).2 with
  | inr (rs, ls) =>
      rs = rpcs chain_resolved ∧ ls = links chain_resolved ∧
      ∀ r, r ∈ rpcs chain_resolved → name (input r) = "Empty"%string
  | inl e =>
      ∃ i r, rpcs chain_resolved !! i = Some r ∧
             name (input r) ≠ "Empty"%string ∧
             (∀ j r', j < i → rpcs chain_resolved !! j = Some r' →
                      name (input r') = "Empty"%string) ∧
             e = RuntimeError_incoming_links 0 i (name (input r)) 1 []
  end.
Proof.
  apply (no_signature_blueprint blueprint_idle chain_resolved).
  vm_compute. reflexivity.
Defined.

(** * Further properties of [test_orchestrator] *)

Lemma test_orchestrator_unfold bpjson dijson c :
  test_orchestrator bpjson dijson c =
  match collect_node_infos bpjson dijson c with
  | (c1, inl e) => (c1, inl e)
  | (c1, inr m) =>
      match collect_rpc_and_link_infos bpjson c1 with
      | (c2, inl e) => (c2, inl e)
      | (c2, inr rl) => (c2, inr (m, rl.1, rl.2))
      end
  end.
Proof.
  unfold test_orchestrator, bind at 1.
  destruct (collect_node_infos bpjson dijson c) as [c1 [e|m]]; [done|].
  unfold bind, ret.
  by destruct (collect_rpc_and_link_infos bpjson c1) as [c2 [e|rl]].
Qed.

Lemma registry_of_is_Some dil k :
  NoDup (di_container_name <$> dil) →
  is_Some (registry_of dil !! k) ↔ k ∈ di_container_name <$> dil.
Proof.
  intros Hnd. split.
  - intros [x Hx].
    destruct (decide (k ∈ di_container_name <$> dil)) as [Hin|Hnotin]; [done|].
    rewrite registry_of_lookup_None in Hx; done.
  - intros (di & -> & Hdi)%list_elem_of_fmap.
    rewrite registry_of_lookup; [by eexists|done..].
Qed.

(** X11. The statement is about documents that carry every key the code
    reads, with values of the declared types, which is what the types
    [Blueprint] and [DockerInfo] describe.  For these, a run of
    [test_orchestrator] on the containers of a new process ends in one of
    these ways, the earlier taking precedence: the duplicate-container
    [ValueError] when a name occurs twice in the dockerinfo; the
    not-present-in-dockerinfo [ValueError], for a node of the blueprint
    that is not deployed; a [KeyError] from a lookup in [self.nodes], which
    then names the target of a connection that is not deployed and never a
    node of the blueprint; the [RuntimeError] of the interlinking loop; or
    the result, whose mapping is the one the dockerinfo describes and which
    has one RPC for each operation signature of the blueprint.  The guarded
    [incoming_links[0]] never raises an [IndexError]. *)
Theorem run_outcome bpjson dijson :
  match (test_orchestrator bpjson dijson Core_class).2 with
  | inl (ValueError_duplicate_container k) =>
      ¬ NoDup (container_names dijson)
  | inl (ValueError_not_in_dockerinfo k) =>
      NoDup (container_names dijson) ∧
      k ∈ bp_container_name <$> bp_nodes bpjson ∧
      k ∉ container_names dijson
  | inl (KeyError k) =>
      NoDup (container_names dijson) ∧
      (∀ n, n ∈ bp_nodes bpjson →
            bp_container_name n ∈ container_names dijson) ∧
      (k ∉ container_names dijson) ∧
      ∃ n sc con, n ∈ bp_nodes bpjson ∧ sc ∈ operation_signature_list n ∧
                  con ∈ connected_to sc ∧ con_container_name con = k
  | inl (RuntimeError_incoming_links observed _ _ expected _) =>
      NoDup (container_names dijson) ∧
      (∀ n, n ∈ bp_nodes bpjson →
            bp_container_name n ∈ container_names dijson) ∧
      (∀ k, k ∈ blueprint_keys bpjson → k ∈ container_names dijson) ∧
      observed ≠ expected
  | inl IndexError => False
  | inr (m, rs, ls) =>
      NoDup (container_names dijson) ∧
      (∀ n, n ∈ bp_nodes bpjson →
            bp_container_name n ∈ container_names dijson) ∧
      (∀ k, k ∈ blueprint_keys bpjson → k ∈ container_names dijson) ∧
      m = registry_of (docker_info_list dijson) ∧
      length rs = length (blueprint_signatures bpjson)
  end.
Proof.
  unfold container_names.
  rewrite test_orchestrator_unfold, collect_node_infos_unfold.
  pose proof (extract_dockerinfo_spec dijson Core_class) as Hex.
  destruct (extract_dockerinfo dijson Core_class) as [c1 [e|[]]].
  - destruct Hex as (Hnot & [k ->] & _). simpl. intros Hnd. apply Hnot.
    split; [done|]. intros di _. done.
  - destruct Hex as ([Hnd _] & Hn & Hr & Hl). simpl in Hn, Hr, Hl.
    rewrite (right_id_L ∅ (∪)) in Hn.
    assert (Hdep : ∀ k, is_Some (nodes c1 !! k) ↔
              (k ∈ di_container_name <$> docker_info_list dijson)).
    { intros k. rewrite Hn. by apply registry_of_is_Some. }
    pose proof (verify_blueprint_spec bpjson c1) as Hv.
    destruct (verify_blueprint bpjson c1) as [c2 [e|[]]].
    + destruct Hv as (-> & n & Hin & Hnone & ->). simpl.
      split_and!; [done|by apply list_elem_of_fmap_2|].
      intros [x Hx]%Hdep. congruence.
    + destruct Hv as (-> & Hall).
      assert (Hnodes : ∀ n, n ∈ bp_nodes bpjson →
                bp_container_name n ∈
                di_container_name <$> docker_info_list dijson).
      { intros n Hin. by apply Hdep, Hall. }
      pose proof (rpc_and_link_outcome bpjson c1) as Hout.
      rewrite collect_rpc_and_link_infos_unfold, extract_rpcs_flat in *.
      pose proof (extract_loop_exact (blueprint_signatures bpjson) [] c1)
        as Hloop.
      destruct (for_fold (blueprint_signatures bpjson) _ [] c1)
        as [c3 [e|lps]].
      * destruct Hloop as (k & (done & rest & Hsplit & _ & Hnone) & ->).
        simpl.
        split_and!; [done|done| |].
        -- intros [x Hx]%Hdep. congruence.
        -- assert (k ∈ blueprint_keys bpjson) as Hkey.
           { rewrite blueprint_keys_flat, Hsplit. apply elem_of_app. right.
             apply list_elem_of_here. }
           apply elem_of_blueprint_keys in Hkey as (n & sc & Hin & Hsc & Hkey).
           apply elem_of_cons in Hkey
             as [->|(con & -> & Hcon)%list_elem_of_fmap].
           ++ destruct (Hall n Hin) as [x Hx]. congruence.
           ++ exists n, sc, con. done.
      * destruct Hloop as (_ & _ & _ & Hrpcs & Hlen & _).
        pose proof (interlink_interlinked lps c3) as (_ & Hst & _).
        pose proof (interlink_inv lps (λ _ _, True) c3) as Hint.
        destruct (interlink lps c3) as [c4 [e|[]]]; simpl in *.
        -- destruct Hint as (_ & i & r & _ & _ & _ & -> & _); [done..|].
           unfold cardinality_error in *. destruct Hout as [Hne Hkeys].
           split_and!; [done..| |done]. intros k Hk. by apply Hdep, Hkeys.
        -- split_and!; [done|done| |done|].
           ++ intros k Hk. by apply Hdep, Hout.
           ++ rewrite (static_length _ _ Hst), Hrpcs, Hr. simpl. done.
Qed.

Lemma second_run_raises_witness :
  ∃ k, (test_orchestrator blueprint_chain dockerinfo_ABC chain_resolved).2 =
       inl (ValueError_duplicate_container k).
Proof.
  destruct (test_orchestrator blueprint_chain dockerinfo_ABC Core_class)
    as [c1 [e|res]] eqn:Hrun.
  - exfalso. vm_compute in Hrun. discriminate Hrun.
  - apply (second_run_raises blueprint_chain dockerinfo_ABC Core_class
             chain_resolved res).
    + unfold chain_resolved. rewrite Hrun. reflexivity.
    + vm_compute. discriminate.
Defined.

(** * Calling the resolver again *)

(** A successful interlinking loop creates one link for each RPC of
    [self.rpcs] whose input message name is not "Empty". *)
Lemma interlink_link_count lps c c' :
  interlink lps c = (c', inr tt) →
  length (links c') =
  length (links c) +
  length (filter (λ r, name (input r) ≠ "Empty"%string) (rpcs c)).
Proof.
  intros Hrun.
  pose proof (interlink_inv lps
    (λ k c3, length (links c3) =
             length (links c) +
             length (filter (λ r, name (input r) ≠ "Empty"%string)
                       (take k (rpcs c)))) c) as H.
  rewrite Hrun in H. destruct H as (Hlen & _).
  - intros k c3 rpc Hk _ Hrpc _ Hempty.
    rewrite (take_S_r _ _ _ Hrpc), filter_app, length_app, Hk.
    rewrite filter_cons_False by (by intros Hne). simpl. lia.
  - intros k c3 rpc lp Hk _ Hrpc _ Hne. simpl.
    rewrite (take_S_r _ _ _ Hrpc), filter_app, !length_app, Hk.
    rewrite filter_cons_True by done. simpl. lia.
  - rewrite take_0. simpl. lia.
  - by rewrite firstn_all in Hlen.
Qed.

(** The descriptors of a signature are addressed to the same RPCs whatever
    the position of the RPC they come from. *)
Lemma sig_descriptors_shift m a b sig_conn r :
  length (incoming_links (sig_descriptors m a sig_conn) r) =
  length (incoming_links (sig_descriptors m b sig_conn) r).
Proof.
  unfold sig_descriptors, incoming_links.
  generalize (output_message_name (operation_signature sig_conn)).
  intros msg. induction (connected_to sig_conn) as [|con cons IH]; [done|].
  change (con :: cons) with ([con] ++ cons).
  rewrite !omap_app, !filter_app, !length_app, IH. f_equal.
  simpl. destruct (m !! con_container_name con) as [t|]; simpl; [|done].
  rewrite !filter_cons. simpl.
  by destruct (decide (t = node r ∧ con_operation_name con = operation r)).
Qed.

Lemma extracted_descriptors_shift m a b sigs r :
  length (incoming_links (extracted_descriptors m a sigs) r) =
  length (incoming_links (extracted_descriptors m b sigs) r).
Proof.
  revert a b. induction sigs as [|p sigs IH]; intros a b; [done|].
  simpl. unfold incoming_links in *. rewrite !filter_app, !length_app.
  rewrite (IH (S a) (S b)). f_equal. apply sig_descriptors_shift.
Qed.

(** X13. [collect_rpc_and_link_infos] is not meant to be called twice.
    After a successful call that started with no RPC and no link, a second
    call with the same blueprint succeeds as well: it appends a second RPC
    for every operation signature and matches the new descriptors against
    the old RPCs as well as the new ones, so that it returns twice as many
    RPCs and three times as many links as the first call. *)
Theorem second_call_accumulates bpjson c c' rs ls :
  rpcs c = [] → links c = [] →
  collect_rpc_and_link_infos bpjson c = (c', inr (rs, ls)) →
  ∃ c'' rs2 ls2,
    collect_rpc_and_link_infos bpjson c' = (c'', inr (rs2, ls2)) ∧
    length rs2 = 2 * length rs ∧ length ls2 = 3 * length ls.
Proof.
  intros Hr0 Hl0. rewrite !collect_rpc_and_link_infos_unfold, !extract_rpcs_flat.
  set (sigs := blueprint_signatures bpjson).
  pose proof (extract_loop_exact sigs [] c) as H1.
  destruct (for_fold sigs _ [] c) as [c1 [e|lps1]]; [done|].
  destruct H1 as (Hkeys & Hn1 & Hl1 & Hr1 & Hlen1 & Hlps1).
  rewrite Hr0 in Hr1, Hlps1. simpl in Hr1, Hlps1.
  pose proof (interlink_inv lps1 (λ _ _, True) c1) as Hok1.
  pose proof (interlink_interlinked lps1 c1) as Hi1.
  pose proof (interlink_link_count lps1 c1) as Hc1.
  destruct (interlink lps1 c1) as [c2 [e|[]]]; [done|].
  intros [= <- <- <-].
  destruct Hok1 as (_ & _ & Hok1); [done..|].
  destruct Hi1 as (Hn2 & Hst2 & _). simpl in Hn2, Hst2.
  specialize (Hc1 c2 eq_refl). rewrite Hl1, Hl0 in Hc1. simpl in Hc1.
  pose proof (extract_loop_exact sigs [] c2) as H2.
  destruct (for_fold sigs _ [] c2) as [c3 [e|lps2]].
  { destruct H2 as (k & Hk & _). exfalso.
    apply first_missing_not_all in Hk. apply Hk.
    rewrite Hn2, Hn1. exact Hkeys. }
  destruct H2 as (_ & Hn3 & Hl3 & Hr3 & _ & Hlps2). simpl in Hlps2.
  rewrite Hn2, Hn1 in Hr3, Hlps2. rewrite <- Hr1 in Hr3.
  assert (Hsame : ∀ r, cardinality_ok lps2 r ↔ cardinality_ok lps1 r).
  { intros r. unfold cardinality_ok. rewrite Hlps1, Hlps2.
    by rewrite (extracted_descriptors_shift _ (length (rpcs c2)) 0). }
  pose proof (interlink_inv lps2 (λ _ _, True) c3) as Hok2.
  pose proof (interlink_interlinked lps2 c3) as Hi3.
  pose proof (interlink_link_count lps2 c3) as Hc3.
  destruct (interlink lps2 c3) as [c4 [e|[]]].
  { exfalso. destruct Hok2 as (_ & i & r & Hi & Hbad & _); [done..|].
    apply Hbad, Hsame. rewrite Hr3 in Hi.
    apply lookup_app_Some in Hi as [Hi|[_ Hi]].
    - destruct (static_lookup _ _ _ _ Hst2 Hi) as (r1 & Hi1 & Hs).
      rewrite (cardinality_ok_static lps1 r r1 Hs). by apply (Hok1 i).
    - by apply (Hok1 (i - length (rpcs c2))). }
  destruct Hi3 as (_ & Hst4 & _). simpl in Hst4.
  specialize (Hc3 c4 eq_refl).
  assert (Hcount : length (filter (λ r, name (input r) ≠ "Empty"%string)
                             (rpcs c2)) =
                   length (filter (λ r, name (input r) ≠ "Empty"%string)
                             (rpcs c1))).
  { apply filter_length_static; [|done].
    intros r r' Hs. unfold rpc_static in Hs. injection Hs as _ _ Hs _.
    by rewrite Hs. }
  exists c4, (rpcs c4), (links c4). split_and!; [done| |].
  - rewrite (static_length _ _ Hst4), Hr3, length_app,
            (static_length _ _ Hst2). lia.
  - rewrite Hc3, Hl3, Hr3, filter_app, length_app, Hcount, Hc1. lia.
Qed.

Lemma second_call_accumulates_witness :
  ∃ c'' rs2 ls2,
    collect_rpc_and_link_infos blueprint_chain chain_resolved =
      (c'', inr (rs2, ls2)) ∧
    length rs2 = 2 * length (rpcs chain_resolved) ∧
    length ls2 = 3 * length (links chain_resolved).
Proof.
  apply (second_call_accumulates blueprint_chain chain_registered
           chain_resolved).
  - vm_compute. reflexivity.
  - vm_compute. reflexivity.
  - vm_compute. reflexivity.
Defined.

(** * From the connections of the blueprint to the links *)

Lemma registry_of_key dil k ni :
  registry_of dil !! k = Some ni → container_name ni = k.
Proof.
  unfold registry_of. intros H%elem_of_list_to_map_2.
  apply list_elem_of_fmap in H as (di & [= -> ->] & _). done.
Qed.

Lemma elem_of_sig_descriptors m rpc_id sig_conn lp :
  lp ∈ sig_descriptors m rpc_id sig_conn ↔
  ∃ con target, con ∈ connected_to sig_conn ∧
    m !! con_container_name con = Some target ∧
    lp = {| lp_input := rpc_id;
            lp_message_name :=
              output_message_name (operation_signature sig_conn);
            output_node := target;
            output_operation := con_operation_name con |}.
Proof.
  unfold sig_descriptors. rewrite list_elem_of_omap. split.
  - intros (con & Hcon & Hlp).
    destruct (m !! con_container_name con) as [t|] eqn:Ht; [|done].
    simpl in Hlp. injection Hlp as <-. by exists con, t.
  - intros (con & t & Hcon & Ht & ->). exists con. by rewrite Ht.
Qed.

Lemma elem_of_extracted_descriptors m rpc_id sigs lp :
  lp ∈ extracted_descriptors m rpc_id sigs ↔
  ∃ i p con target, sigs !! i = Some p ∧ con ∈ connected_to p.2 ∧
    m !! con_container_name con = Some target ∧
    lp = {| lp_input := rpc_id + i;
            lp_message_name := output_message_name (operation_signature p.2);
            output_node := target;
            output_operation := con_operation_name con |}.
Proof.
  revert rpc_id. induction sigs as [|p0 sigs IH]; intros rpc_id; simpl.
  - split; [by intros ?%elem_of_nil|by intros (i & p & _ & _ & ? & _)].
  - rewrite elem_of_app, elem_of_sig_descriptors, IH. split.
    + intros [(con & t & Hcon & Ht & ->)|(i & p & con & t & Hi & Hcon & Ht & ->)].
      * exists 0, p0, con, t. by rewrite Nat.add_0_r.
      * exists (S i), p, con, t. split_and!; [done..|].
        by replace (rpc_id + S i) with (S rpc_id + i) by lia.
    + intros ([|i] & p & con & t & Hi & Hcon & Ht & ->).
      * left. injection Hi as ->. exists con, t. by rewrite Nat.add_0_r.
      * right. exists i, p, con, t. split_and!; [done..|].
        by replace (rpc_id + S i) with (S rpc_id + i) by lia.
Qed.

Lemma extracted_rpcs_lookup m sigs j :
  (∀ k, k ∈ sigs ≫= (λ p, sig_conn_keys p.1 p.2) → is_Some (m !! k)) →
  extracted_rpcs m sigs !! j =
  p ← sigs !! j;
  ni ← m !! bp_container_name p.1;
  Some (rpc_of_signature ni (operation_signature p.2)).
Proof.
  revert j. induction sigs as [|p sigs IH]; intros j Hall; [done|].
  change ((p :: sigs) ≫= ?f) with (f p ++ (sigs ≫= f)) in Hall.
  destruct (Hall (bp_container_name p.1)) as [ni Hni].
  { apply elem_of_app. left. apply list_elem_of_here. }
  rewrite (extracted_rpcs_cons _ _ _ ni Hni).
  destruct j as [|j]; simpl.
  - by rewrite Hni.
  - apply IH. intros k Hk. apply Hall, elem_of_app. by right.
Qed.

(** X14. After a successful run of [test_orchestrator] on the containers
    of a new process, the links are the connections of the blueprint whose
    target operation exists.  The RPC in position [i] is built from the
    [i]-th operation signature of the blueprint and the registered node of
    its container.  Every link goes from the RPC of a signature to an RPC
    that one of the [connected_to] entries of that signature names by
    container and operation, and carries the output message name of the
    signature.  And every [connected_to] entry that names an existing RPC
    by container and operation has a link from the RPC of its signature to
    that RPC. *)
Theorem links_realise_connections bpjson dijson c' m rs ls :
  test_orchestrator bpjson dijson Core_class = (c', inr (m, rs, ls)) →
  (∀ i p, blueprint_signatures bpjson !! i = Some p →
     ∃ ni, m !! bp_container_name p.1 = Some ni ∧
           container_name ni = bp_container_name p.1 ∧
           rpc_static <$> rs !! i =
             Some (rpc_static (rpc_of_signature ni (operation_signature p.2)))) ∧
  (∀ l, l ∈ ls →
     ∃ p con q,
       blueprint_signatures bpjson !! link_input l = Some p ∧
       con ∈ connected_to p.2 ∧
       rs !! link_output l = Some q ∧
       container_name (node q) = con_container_name con ∧
       operation q = con_operation_name con ∧
       message_name l = output_message_name (operation_signature p.2)) ∧
  (∀ i p con j q,
     blueprint_signatures bpjson !! i = Some p → con ∈ connected_to p.2 →
     rs !! j = Some q →
     container_name (node q) = con_container_name con →
     operation q = con_operation_name con →
     ∃ l, l ∈ ls ∧ link_input l = i ∧ link_output l = j ∧
          message_name l = output_message_name (operation_signature p.2)).
Proof.
  rewrite test_orchestrator_unfold, collect_node_infos_unfold.
  pose proof (extract_dockerinfo_spec dijson Core_class) as Hex.
  destruct (extract_dockerinfo dijson Core_class) as [c1 [e|[]]]; [done|].
  destruct Hex as (_ & Hn & Hr & Hl). simpl in Hn, Hr, Hl.
  rewrite (right_id_L ∅ (∪)) in Hn.
  pose proof (verify_blueprint_spec bpjson c1) as Hv.
  destruct (verify_blueprint bpjson c1) as [c2 [e|[]]]; [done|].
  destruct Hv as (-> & _).
  destruct (collect_rpc_and_link_infos bpjson c1) as [c3 [e|[rs' ls']]] eqn:Hrun;
    [done|].
  intros [= <- <- <- <-].
  destruct (interlink_join _ _ _ _ _ Hl Hrun) as (c4 & lps & Hext & Hst & Ha & Hb).
  rewrite extract_rpcs_flat in Hext.
  pose proof (extract_loop_exact (blueprint_signatures bpjson) [] c1) as Hloop.
  rewrite Hext in Hloop.
  destruct Hloop as (Hkeys & _ & _ & Hrpcs & _ & Hlps).
  rewrite Hr in Hrpcs, Hlps. simpl in Hrpcs, Hlps.
  assert (Hkey : ∀ k ni, nodes c1 !! k = Some ni → container_name ni = k).
  { intros k ni. rewrite Hn. apply registry_of_key. }
  assert (Hsig : ∀ j p, blueprint_signatures bpjson !! j = Some p →
            ∃ ni, nodes c1 !! bp_container_name p.1 = Some ni ∧
                  rpcs c4 !! j =
                    Some (rpc_of_signature ni (operation_signature p.2))).
  { intros j p Hj.
    rewrite Hrpcs, (extracted_rpcs_lookup _ _ _ Hkeys), Hj. simpl.
    destruct (Hkeys (bp_container_name p.1)) as [ni Hni].
    { apply list_elem_of_bind. exists p.
      split; [apply list_elem_of_here|by apply list_elem_of_lookup_2 in Hj]. }
    exists ni. by rewrite Hni. }
  split_and!.
  - intros i p Hi. destruct (Hsig i p Hi) as (ni & Hni & Hrpc).
    exists ni. split_and!; [done|by apply Hkey|].
    by rewrite <- list_lookup_fmap, Hst, list_lookup_fmap, Hrpc.
  - intros l Hlin.
    destruct (Ha l Hlin) as (q & lp & Hq & Hlp & Hin & Hmsg).
    assert (lp ∈ incoming_links lps q) as Hmem
      by (rewrite Hlp; apply list_elem_of_here).
    unfold incoming_links in Hmem.
    apply list_elem_of_filter in Hmem as [[Hnode Hop] Hmem].
    rewrite Hlps in Hmem.
    apply elem_of_extracted_descriptors in Hmem
      as (i & p & con & t & Hi & Hcon & Ht & ->).
    simpl in *. exists p, con, q. rewrite Hin.
    split_and!; [done..| |done|done].
    rewrite <- Hnode. by apply Hkey.
  - intros i p con j q Hi Hcon Hq Hname Hop.
    destruct (Hkeys (con_container_name con)) as [t Ht].
    { apply list_elem_of_bind. exists p.
      split; [|by apply list_elem_of_lookup_2 in Hi].
      unfold sig_conn_keys. apply list_elem_of_further.
      by apply list_elem_of_fmap_2. }
    destruct (static_lookup _ _ _ _ Hst Hq) as (q0 & Hq0 & Hs).
    assert (node q = t) as Hnode.
    { destruct (blueprint_signatures bpjson !! j) as [p'|] eqn:Hj.
      - destruct (Hsig j p' Hj) as (ni & Hni & Hrpc).
        rewrite Hq0 in Hrpc. injection Hrpc as ->.
        unfold rpc_static in Hs. injection Hs as Hs _ _ _. simpl in Hs.
        rewrite Hs in *. pose proof (Hkey _ _ Hni) as Hk.
        rewrite Hname in Hk. rewrite <- Hk in Hni. congruence.
      - rewrite Hrpcs, (extracted_rpcs_lookup _ _ _ Hkeys), Hj in Hq0. done. }
    destruct (Hb j q
                {| lp_input := i;
                   lp_message_name :=
                     output_message_name (operation_signature p.2);
                   output_node := t;
                   output_operation := con_operation_name con |})
      as (l & Hlin & Hout & Hin & Hmsg); [done| |done|done|].
    + rewrite Hlps. apply elem_of_extracted_descriptors.
      exists i, p, con, t. done.
    + exists l. done.
Qed.

Lemma links_realise_connections_witness :
  (∀ i p, blueprint_signatures blueprint_chain !! i = Some p →
     ∃ ni, nodes chain_resolved !! bp_container_name p.1 = Some ni ∧
           container_name ni = bp_container_name p.1 ∧
           rpc_static <$> rpcs chain_resolved !! i =
             Some (rpc_static (rpc_of_signature ni (operation_signature p.2)))) ∧
  (∀ l, l ∈ links chain_resolved →
     ∃ p con q,
       blueprint_signatures blueprint_chain !! link_input l = Some p ∧
       con ∈ connected_to p.2 ∧
       rpcs chain_resolved !! link_output l = Some q ∧
       container_name (node q) = con_container_name con ∧
       operation q = con_operation_name con ∧
       message_name l = output_message_name (operation_signature p.2)) ∧
  (∀ i p con j q,
     blueprint_signatures blueprint_chain !! i = Some p →
     con ∈ connected_to p.2 →
     rpcs chain_resolved !! j = Some q →
     container_name (node q) = con_container_name con →
     operation q = con_operation_name con →
     ∃ l, l ∈ links chain_resolved ∧ link_input l = i ∧ link_output l = j ∧
          message_name l = output_message_name (operation_signature p.2)).
Proof.
  apply (links_realise_connections blueprint_chain dockerinfo_ABC
           chain_resolved).
  vm_compute. reflexivity.
Defined.

(** * One link per RPC with an input *)

(** The claim fails for a call that starts on a store that already holds
    RPCs and links.  A second call on the resolved chain succeeds and
    returns six RPCs, four of them with an input other than "Empty", and
    six links; the [incoming] lists of the old "B".Consume and "C".Sink
    hold two links each. *)
Lemma second_call_breaks_one_link :
  (∃ c' rs ls,
     collect_rpc_and_link_infos blueprint_chain chain_resolved =
       (c', inr (rs, ls)) ∧
     length ls = 6 ∧
     length (filter (λ r, name (input r) ≠ "Empty"%string) rs) = 4 ∧
     incoming <$> rs = [[]; [0; 2]; [1; 3]; []; [4]; [5]]) ∧
  ¬ (∀ bpjson c c' rs ls,
       collect_rpc_and_link_infos bpjson c = (c', inr (rs, ls)) →
       length ls = length (filter (λ r, name (input r) ≠ "Empty"%string) rs) ∧
       ∀ r, r ∈ rs → name (input r) ≠ "Empty"%string →
            length (incoming r) = 1).
Proof.
  split.
  - eexists _, _, _. split; [by vm_compute|]. by vm_compute.
  - intros H.
    destruct (H blueprint_chain chain_resolved
                (collect_rpc_and_link_infos blueprint_chain chain_resolved).1
                (rpcs (collect_rpc_and_link_infos blueprint_chain
                         chain_resolved).1)
                (links (collect_rpc_and_link_infos blueprint_chain
                          chain_resolved).1)) as [Hlen _];
      [by vm_compute|].
    vm_compute in Hlen. discriminate Hlen.
Qed.

(** C10, as the code has it.  After a successful
    [collect_rpc_and_link_infos] that started with no RPC and no link, the
    returned RPCs are those of the operation signatures of the blueprint,
    one for each, in document order; the returned links are as many as the
    returned RPCs whose input message name is not "Empty"; the [incoming]
    list of such an RPC holds exactly one link, which is the one and only
    returned link whose output is that RPC; and the [incoming] list of an
    RPC with input "Empty" is empty, no returned link having it as
    output. *)
Theorem one_link_per_input bpjson c c' rs ls :
  rpcs c = [] → links c = [] →
  collect_rpc_and_link_infos bpjson c = (c', inr (rs, ls)) →
  rpc_static <$> rs =
    rpc_static <$> extracted_rpcs (nodes c) (blueprint_signatures bpjson) ∧
  length rs = length (blueprint_signatures bpjson) ∧
  length ls = length (filter (λ r, name (input r) ≠ "Empty"%string) rs) ∧
  ∀ i r, rs !! i = Some r →
    if decide (name (input r) = "Empty"%string) then
      incoming r = [] ∧ ∀ l, l ∈ ls → link_output l ≠ i
    else
      ∃ j l, incoming r = [j] ∧ ls !! j = Some l ∧ link_output l = i ∧
             ∀ j' l', ls !! j' = Some l' → link_output l' = i → j' = j.
Proof.
  intros Hr0 Hl0. rewrite collect_rpc_and_link_infos_unfold.
  pose proof (extract_rpcs_spec bpjson c) as Hex.
  pose proof (extract_loop_exact (blueprint_signatures bpjson) [] c) as Hloop.
  rewrite <- extract_rpcs_flat in Hloop.
  destruct (extract_rpcs bpjson c) as [c1 [e|lps]]; [done|].
  destruct Hex as (_ & Hext & Hwf).
  destruct Hloop as (_ & _ & _ & Hrpcs & Hsigs & _).
  rewrite Hr0 in Hrpcs. simpl in Hrpcs.
  destruct (interlink lps c1) as [c2 [e|[]]] eqn:Hrun; [done|].
  intros [= <- <- <-].
  assert (Hl1 : links c1 = []) by (destruct Hext as (_ & -> & _); done).
  pose (K := λ (k : nat) (c3 : Core),
    (∀ l, l ∈ links c3 → link_output l < k) ∧
    (∀ i r, rpcs c1 !! i = Some r → i < k →
       length (positions link_output i (links c3) 0) =
       expected_incoming_links r) ∧
    length (links c3) =
    length (filter (λ r, name (input r) ≠ "Empty"%string) (take k (rpcs c1)))).
  destruct (interlink_consistent lps K c1) with (c' := c2)
    as ((Hout & Hcount & Hlen) & [_ _ Hin _] & Hst); try done.
  - apply (store_consistent_extended c); [done|].
    by apply store_consistent_empty.
  - by apply Hwf.
  - intros k c3 rpc (Hout & Hcount & Hlen) _ _ Hk _ Hempty. split_and!.
    + intros l Hl. specialize (Hout l Hl). lia.
    + intros i r Hi Hlt. destruct (decide (i = k)) as [->|Hne];
        [|apply Hcount; [done|lia]].
      rewrite positions_none.
      * rewrite Hk in Hi. injection Hi as <-.
        unfold expected_incoming_links. by rewrite decide_True.
      * intros l Hl. specialize (Hout l Hl). lia.
    + rewrite (take_S_r _ _ _ Hk), filter_app, length_app, Hlen.
      rewrite filter_cons_False by (by intros Hne). simpl. lia.
  - intros k c3 rpc lp (Hout & Hcount & Hlen) _ _ Hk _ Hne. split_and!.
    + simpl. intros l [Hl| ->%list_elem_of_singleton]%elem_of_app.
      * specialize (Hout l Hl). lia.
      * simpl. lia.
    + intros i r Hi Hlt. simpl. rewrite positions_app. simpl.
      destruct (decide (k = i)) as [<-|Hki].
      * rewrite positions_none.
        -- rewrite Hk in Hi. injection Hi as <-.
           unfold expected_incoming_links. by rewrite decide_False.
        -- intros l Hl. specialize (Hout l Hl). lia.
      * rewrite (right_id_L [] (++)). apply Hcount; [done|lia].
    + simpl. rewrite length_app. simpl.
      rewrite (take_S_r _ _ _ Hk), filter_app, length_app, Hlen.
      rewrite filter_cons_True by done. simpl. lia.
  - unfold K. rewrite Hl1. split_and!; [|intros; lia|by rewrite take_0].
    by intros l ?%elem_of_nil.
  - split_and!.
    + by rewrite Hst, Hrpcs.
    + by rewrite (static_length _ _ Hst), Hrpcs.
    + rewrite Hlen, firstn_all.
      symmetry. apply filter_length_static; [|done].
      intros r r' Hs. unfold rpc_static in Hs. injection Hs as _ _ Hs _.
      by rewrite Hs.
    + intros i r Hi.
      destruct (static_lookup (rpcs c2) (rpcs c1) i r Hst Hi) as (r1 & Hi1 & Hs).
      specialize (Hcount i r1 Hi1 (lookup_lt_Some _ _ _ Hi1)).
      rewrite <- (expected_incoming_links_static _ _ Hs) in Hcount.
      rewrite <- (Hin i r Hi) in Hcount.
      unfold expected_incoming_links in Hcount.
      destruct (decide (name (input r) = "Empty"%string)) as [He|Hne].
      * assert (Hnil : incoming r = [])
          by (by destruct (incoming r)).
        split; [done|]. intros l (j & Hj)%list_elem_of_lookup Hlo.
        assert (j ∈ incoming r) as Hjin.
        { rewrite (Hin i r Hi). apply elem_of_positions. exists l.
          rewrite Nat.sub_0_r. split_and!; [lia|done..]. }
        rewrite Hnil in Hjin. by apply elem_of_nil in Hjin.
      * destruct (incoming r) as [|j [|j2 rest]] eqn:Hinc; try done.
        assert (j ∈ positions link_output i (links c2) 0) as
          (l & _ & Hl & Hlo)%elem_of_positions.
        { rewrite <- (Hin i r Hi), Hinc. apply list_elem_of_here. }
        rewrite Nat.sub_0_r in Hl. exists j, l. split_and!; [done..|].
        intros j' l' Hj' Hlo'.
        assert (j' ∈ incoming r) as Hjin.
        { rewrite (Hin i r Hi). apply elem_of_positions. exists l'.
          rewrite Nat.sub_0_r. split_and!; [lia|done..]. }
        rewrite Hinc in Hjin. by apply list_elem_of_singleton in Hjin.
Qed.

(** Scenario B, with what it returns written out: one link, for
    "B".Consume; none for "A".Produce. *)
Lemma one_link_per_input_witness :
  rpc_static <$> [rpc_Produce_linked; rpc_Consume_linked] =
    rpc_static <$>
      extracted_rpcs
        (nodes (collect_node_infos (blueprint_AB "Data") dockerinfo_AB
                  Core_class).1)
        (blueprint_signatures (blueprint_AB "Data")) ∧
  length [rpc_Produce_linked; rpc_Consume_linked] =
    length (blueprint_signatures (blueprint_AB "Data")) ∧
  length [link_Produce_Consume] =
    length (filter (λ r, name (input r) ≠ "Empty"%string)
              [rpc_Produce_linked; rpc_Consume_linked]) ∧
  ∀ i r, [rpc_Produce_linked; rpc_Consume_linked] !! i = Some r →
    if decide (name (input r) = "Empty"%string) then
      incoming r = [] ∧ ∀ l, l ∈ [link_Produce_Consume] → link_output l ≠ i
    else
      ∃ j l, incoming r = [j] ∧ [link_Produce_Consume] !! j = Some l ∧
             link_output l = i ∧
             ∀ j' l', [link_Produce_Consume] !! j' = Some l' →
                      link_output l' = i → j' = j.
Proof.
  apply (one_link_per_input (blueprint_AB "Data")
           (collect_node_infos (blueprint_AB "Data") dockerinfo_AB Core_class).1
           (test_orchestrator (blueprint_AB "Data") dockerinfo_AB Core_class).1
           [rpc_Produce_linked; rpc_Consume_linked] [link_Produce_Consume]).
  - vm_compute. reflexivity.
  - vm_compute. reflexivity.
  - vm_compute. reflexivity.
Defined.
